(** * Registry validator: a shallow embedding of [validate_packages.py]

    The script loads [index.json], lists [packages/*.json], checks that index
    and files agree, validates the structure of every package descriptor and
    sends one HEAD request per version download URL.  This file embeds its
    functions and proves the properties the specification states about them. *)

From Stdlib Require Import String Ascii List ZArith Bool Lia PrimFloat.
Import ListNotations.
Local Open Scope string_scope.
Local Open Scope list_scope.

(** ** Data model *)

(** What [json.load] produces: [None], booleans, integers, floats, strings,
    lists and dicts.  A dict keeps its keys in insertion order, so it is an
    association list; a dict built by the parser has no repeated key
    ([dict_wf]). *)
#[warnings="-register-all"]
Inductive value : Type :=
| VNone
| VBool (b : bool)
| VInt (n : Z)
| VFloat (f : float)
| VStr (s : string)
| VList (l : list value)
| VDict (d : list (string * value)).

Definition dict : Type := list (string * value).

Definition dict_keys (d : dict) : list string := map fst d.

Definition dict_wf (d : dict) : Prop := NoDup (dict_keys d).

Fixpoint dict_lookup (k : string) (d : dict) : option value :=
  match d with
  | [] => None
  | (k', v) :: d' => if String.eqb k k' then Some v else dict_lookup k d'
  end.

Definition dict_mem (k : string) (d : dict) : bool :=
  match dict_lookup k d with Some _ => true | None => false end.

(** A Python [str] assembled by an f-string: literal text, interpolated
    values ([{x}]) and interpolated exceptions ([{e}]), in order.  A plain
    literal is the one-part f-string.  The messages of the script are kept
    in this form; each kind of message starts with its own literal text. *)
Inductive fpart : Type :=
| FText (s : string)
| FValue (v : value)
| FExc (detail : string).

Definition fstring : Type := list fpart.

Definition lit (s : string) : fstring := [FText s].

(** Exceptions that escape the functions of the script: those of the
    dynamic typing of Python, and an exception that [requests.head] raises
    from outside the hierarchy of [requests] (for instance
    [LocationParseError] of urllib3), which no [except] clause of the script
    catches. *)
Inductive exn : Type :=
| TypeError
| AttributeError
| KeyError
| Uncaught (name : string).

Inductive result (A : Type) : Type :=
| Ok (a : A)
| Raise (e : exn).
Arguments Ok {A} a.
Arguments Raise {A} e.

Definition rbind {A B} (r : result A) (k : A -> result B) : result B :=
  match r with
  | Ok a => k a
  | Raise e => Raise e
  end.

Declare Scope result_scope.
Delimit Scope result_scope with result.
Notation "x <- r ;; k" := (rbind r (fun x => k))
  (at level 61, r at next level, right associativity) : result_scope.

(** The body of a [for] loop that may raise, run over a list from the left. *)
Fixpoint rfold {A B} (body : A -> B -> result A) (xs : list B) (acc : A)
  : result A :=
  match xs with
  | [] => Ok acc
  | x :: xs' => rbind (body acc x) (rfold body xs')
  end.

(** ** Python primitives the script uses *)

(** A [str] is the sequence of the bytes of its UTF-8 encoding; equality,
    prefix, suffix and substring tests on ASCII patterns agree with those on
    code points. *)

(** [v == s] for a value and a [str]. *)
Definition value_eq_str (v : value) (s : string) : bool :=
  match v with
  | VStr s' => String.eqb s' s
  | _ => false
  end.

(** [s.startswith(p)]. *)
Fixpoint str_startswith (s p : string) {struct p} : bool :=
  match p with
  | EmptyString => true
  | String a p' =>
      match s with
      | EmptyString => false
      | String b s' => Ascii.eqb a b && str_startswith s' p'
      end
  end.

(** [needle in haystack] for two [str]: some position of [haystack] starts
    with [needle]. *)
Fixpoint str_contains (needle haystack : string) : bool :=
  str_startswith haystack needle ||
  match haystack with
  | EmptyString => false
  | String _ rest => str_contains needle rest
  end.

(** [key in container] for a [str] key: key membership in a dict, element
    membership in a list, substring test in a str, [TypeError] otherwise. *)
Definition py_in (key : string) (container : value) : result bool :=
  match container with
  | VDict d => Ok (dict_mem key d)
  | VList l => Ok (existsb (fun v => value_eq_str v key) l)
  | VStr s => Ok (str_contains key s)
  | VNone | VBool _ | VInt _ | VFloat _ => Raise TypeError
  end.

(** [container.get(key)]: only a dict has the method. *)
Definition py_get (container : value) (key : string) : result value :=
  match container with
  | VDict d => Ok (match dict_lookup key d with Some v => v | None => VNone end)
  | _ => Raise AttributeError
  end.

(** [container[key]] for a [str] key. *)
Definition py_getitem (container : value) (key : string) : result value :=
  match container with
  | VDict d => match dict_lookup key d with
               | Some v => Ok v
               | None => Raise KeyError
               end
  | _ => Raise TypeError
  end.

(** [container.keys()]. *)
Definition py_keys (container : value) : result (list string) :=
  match container with
  | VDict d => Ok (dict_keys d)
  | _ => Raise AttributeError
  end.

(** [x in d] for a dict [d] and any value [x]: [x] is hashed first, and lists
    and dicts are unhashable. *)
Definition py_in_dict (x : value) (d : dict) : result bool :=
  match x with
  | VList _ | VDict _ => Raise TypeError
  | VStr s => Ok (dict_mem s d)
  | VNone | VBool _ | VInt _ | VFloat _ => Ok false
  end.

Definition is_dict (v : value) : bool :=
  match v with VDict _ => true | _ => false end.

(** ** validate_package_structure *)

Definition required_fields : list string :=
  ["name"; "author"; "description"; "versions"].

Definition missing_required_field (field : string) : fstring :=
  [FText "Missing required field: "; FValue (VStr field)].

Definition name_mismatch (name : value) (package_name : string) : fstring :=
  [FText "Package name '"; FValue name; FText "' doesn't match filename '";
   FValue (VStr package_name); FText "'"].

Definition versions_not_object : fstring := lit "Versions must be an object".

Definition latest_not_found (latest : value) : fstring :=
  [FText "Latest version '"; FValue latest; FText "' not found in versions"].

Definition missing_latest : fstring := lit "Missing 'latest' field in versions".

Definition validate_package_structure (package_name : string)
    (package_data : value) : result (list fstring) :=
  (errors <- rfold (fun errors field =>
                      present <- py_in field package_data ;;
                      Ok (if present then errors
                          else errors ++ [missing_required_field field]))
                   required_fields [] ;;
   name <- py_get package_data "name" ;;
   let errors :=
     if value_eq_str name package_name then errors
     else errors ++ [name_mismatch name package_name] in
   has_versions <- py_in "versions" package_data ;;
   if has_versions then
     versions <- py_getitem package_data "versions" ;;
     match versions with
     | VDict vs =>
         if dict_mem "latest" vs then
           latest <- py_getitem versions "latest" ;;
           found <- py_in_dict latest vs ;;
           Ok (if found then errors
               else errors ++ [latest_not_found latest])
         else Ok (errors ++ [missing_latest])
     | _ => Ok (errors ++ [versions_not_object])
     end
   else Ok errors)%result.

(** ** String methods used on file names *)

(** [s.endswith(suffix)]: some tail of [s] is [suffix]. *)
Fixpoint str_endswith (s suffix : string) : bool :=
  String.eqb s suffix ||
  match s with
  | EmptyString => false
  | String _ rest => str_endswith rest suffix
  end.

(** The scan of [s.replace(old, new)] for a non-empty [old]: left to right,
    a match at the current position emits [new] and jumps over the match
    ([skip] counts the characters of it still to pass), anything else is
    copied. *)
Fixpoint replace_scan (old new : string) (skip : nat) (s : string) : string :=
  match s with
  | EmptyString => EmptyString
  | String c rest =>
      match skip with
      | S n => replace_scan old new n rest
      | O =>
          if str_startswith s old
          then new ++ replace_scan old new (String.length old - 1) rest
          else String c (replace_scan old new 0 rest)
      end
  end.

(** [new] before every character and at the end: what [replace] does with
    an empty [old]. *)
Fixpoint interleave (new s : string) : string :=
  match s with
  | EmptyString => new
  | String c rest => new ++ String c (interleave new rest)
  end.

(** [s.replace(old, new)]. *)
Definition str_replace (s old new : string) : string :=
  match old with
  | EmptyString => interleave new s
  | String _ _ => replace_scan old new 0 s
  end.

(** [package_file.replace(".json", "")], the package name both the
    consistency check and the driver derive from a file name. *)
Definition package_name_of_file (package_file : string) : string :=
  str_replace package_file ".json" "".

(** ** validate_index_consistency *)

Definition index_without_file (package_name : string) : fstring :=
  [FText "Package '"; FValue (VStr package_name);
   FText "' in index.json but no corresponding file in packages/"].

Definition file_not_in_index (package_file : string) : fstring :=
  [FText "Package file '"; FValue (VStr package_file);
   FText "' not referenced in index.json"].

(** [x in xs] for a list (or a set) of [str]. *)
Definition str_in (x : string) (xs : list string) : bool :=
  existsb (String.eqb x) xs.

(** A [for] loop whose body is [if cond(x): errors.append(msg(x))]. *)
Definition append_when {A} (cond : A -> bool) (msg : A -> fstring)
    (xs : list A) (errors : list fstring) : list fstring :=
  fold_left (fun errors x => if cond x then errors ++ [msg x] else errors)
            xs errors.

Definition validate_index_consistency (index_data : value)
    (package_files : list string) : result (list fstring) :=
  (keys <- py_keys index_data ;;
   let errors :=
     append_when (fun package_name =>
                    let expected_file := (package_name ++ ".json")%string in
                    negb (str_in expected_file package_files))
                 index_without_file keys [] in
   package_names_in_index <- py_keys index_data ;;
   Ok (append_when (fun package_file =>
                      let package_name := package_name_of_file package_file in
                      negb (str_in package_name package_names_in_index))
                   file_not_in_index package_files errors))%result.

(** ** The outside world and the effects of the script *)

(** What opening and parsing a file does. *)
Inductive file_read : Type :=
| Parsed (v : value)
| JSONDecodeError (e : string)
| FileNotFoundError
| OtherError (e : string).

(** What [requests.head] does: a response with its status code, an
    exception of [requests] ([Timeout], caught by the earlier [except]
    clause, or another [RequestException]), or an exception from outside that
    hierarchy, named by its class.  A download URL that is not a string is
    still passed to [requests.head], so the request is keyed by the value. *)
Inductive head_outcome : Type :=
| Response (status_code : Z)
| Timeout (e : string)
| RequestException (e : string)
| OtherException (name : string).

(** One run of the script sees: the files it opens, the listing of the
    packages directory ([None] when [os.path.exists] is false; a path that
    exists is a directory [os.listdir] can list) and the answer to its n-th
    HEAD request. *)
Record world : Type := {
  read_file : string -> file_read;
  listdir_packages : option (list string);
  requests_head : nat -> value -> head_outcome
}.

(** What the script does, in order. *)
Inductive event : Type :=
| EPrint (line : fstring)
| EOpen (path : string)
| EHead (url : value).

Definition trace : Type := list event.

Definition is_head (e : event) : bool :=
  match e with EHead _ => true | _ => false end.

Definition head_requests (tr : trace) : list event := filter is_head tr.

(** A computation appends to the trace and returns or raises. *)
Definition M (A : Type) : Type := trace -> result A * trace.

Definition ret {A} (a : A) : M A := fun tr => (Ok a, tr).

Definition bind {A B} (m : M A) (k : A -> M B) : M B :=
  fun tr =>
    match m tr with
    | (Ok a, tr') => k a tr'
    | (Raise e, tr') => (Raise e, tr')
    end.

Definition lift {A} (r : result A) : M A := fun tr => (r, tr).

Definition emit (e : event) : M unit := fun tr => (Ok tt, tr ++ [e]).

Definition print (line : fstring) : M unit := emit (EPrint line).

Declare Scope m_scope.
Delimit Scope m_scope with M.
Notation "x <- m ;; k" := (bind m (fun x => k))
  (at level 61, m at next level, right associativity) : m_scope.
Notation "m ;; k" := (bind m (fun _ => k))
  (at level 61, right associativity) : m_scope.

(** A [for] loop that updates local variables [acc]. *)
Fixpoint mfold {A B} (body : A -> B -> M A) (xs : list B) (acc : A) : M A :=
  match xs with
  | [] => ret acc
  | x :: xs' => bind (body acc x) (mfold body xs')
  end.

Definition is_empty {A} (xs : list A) : bool :=
  match xs with [] => true | _ :: _ => false end.

Definition is_none (v : value) : bool :=
  match v with VNone => true | _ => false end.

Definition nl : string := String (ascii_of_nat 10) EmptyString.

Fixpoint str_repeat (s : string) (n : nat) : string :=
  match n with
  | O => EmptyString
  | S n' => s ++ str_repeat s n'
  end.

Definition PACKAGES_DIR : string := "packages".
Definition INDEX_FILE : string := "index.json".
(** Seconds a HEAD request may take before [requests] raises [Timeout]. *)
Definition TIMEOUT : Z := 10.

(** [os.path.join(directory, name)] for a relative [name]. *)
Definition os_path_join (directory name : string) : string :=
  directory ++ "/" ++ name.

Definition cross (msg : fstring) : fstring := FText "❌ " :: msg.
Definition warn (msg : fstring) : fstring := FText "⚠️ " :: msg.

(** ** The functions that act on the world *)

Definition invalid_json (filepath e : string) : fstring :=
  [FText "❌ Error: Invalid JSON in "; FValue (VStr filepath); FText ": ";
   FExc e].

Definition file_not_found (filepath : string) : fstring :=
  [FText "❌ Error: File not found: "; FValue (VStr filepath)].

Definition failed_to_read (filepath e : string) : fstring :=
  [FText "❌ Error: Failed to read "; FValue (VStr filepath); FText ": ";
   FExc e].

Definition url_not_found (version : string) : fstring :=
  [FText "URL not found (404) for version "; FValue (VStr version)].

Definition http_status (status_code : Z) (version : string) : fstring :=
  [FText "HTTP "; FValue (VInt status_code); FText " for version ";
   FValue (VStr version)].

Definition url_timeout (version : string) : fstring :=
  [FText "Timeout when checking download URL for version ";
   FValue (VStr version)].

Definition url_error (version e : string) : fstring :=
  [FText "Error checking download URL for version "; FValue (VStr version);
   FText ": "; FExc e].

Definition missing_versions_data : fstring := lit "Missing versions data".

Definition missing_download (version : string) : fstring :=
  [FText "Version "; FValue (VStr version); FText " missing download URL"].

Definition invalid_download (package_name version : string)
    (message : fstring) : fstring :=
  [FText "Invalid download URL for "; FValue (VStr package_name); FText "@";
   FValue (VStr version); FText ": "] ++ message.

Definition valid_download (package_name version : string) : fstring :=
  [FText "✅ Valid download URL for "; FValue (VStr package_name); FText "@";
   FValue (VStr version)].

Definition legacy_version (version : string) : fstring :=
  [FText "Version "; FValue (VStr version);
   FText " is not an object (might be legacy format)"].

(** The local counters of [main]. *)
Record counters : Type := {
  total_errors : Z;
  total_warnings : Z
}.

Definition add_error (c : counters) : counters :=
  {| total_errors := total_errors c + 1; total_warnings := total_warnings c |}.

Definition add_warning (c : counters) : counters :=
  {| total_errors := total_errors c; total_warnings := total_warnings c + 1 |}.

Section World.

Variable w : world.

(** [load_json_file]: the parsed value, or [None] after one printed line.
    A file that holds [null] parses to [None] too, with nothing printed. *)
Definition load_json_file (filepath : string) : M value :=
  (emit (EOpen filepath) ;;
   match read_file w filepath with
   | Parsed v => ret v
   | JSONDecodeError e => print (invalid_json filepath e) ;; ret VNone
   | FileNotFoundError => print (file_not_found filepath) ;; ret VNone
   | OtherError e => print (failed_to_read filepath e) ;; ret VNone
   end)%M.

(** [requests.head(download_url, timeout=TIMEOUT, allow_redirects=True)]
    inside the [try]: the call is recorded and the world answers it.  A
    response, and an exception that one of the two [except] clauses receives,
    is handed to the caller; any other exception is raised past them. *)
Definition head (download_url : value) : M head_outcome :=
  fun tr =>
    match requests_head w (length (head_requests tr)) download_url with
    | OtherException name => (Raise (Uncaught name), tr ++ [EHead download_url])
    | outcome => (Ok outcome, tr ++ [EHead download_url])
    end.

Definition validate_version_download_url (version : string)
    (download_url : value) : M (bool * fstring) :=
  (response <- head download_url ;;
   match response with
   | Response status_code =>
       if (status_code =? 200)%Z then ret (true, lit "")
       else if (status_code =? 404)%Z then ret (false, url_not_found version)
       else ret (false, http_status status_code version)
   | Timeout _ => ret (false, url_timeout version)
   | RequestException e => ret (false, url_error version e)
   | OtherException name => lift (Raise (Uncaught name))
   end)%M.

(** [k in ["latest"]]. *)
Definition is_latest (k : string) : bool := str_in k ["latest"].

(** The body of the loop over [version_keys]. *)
Definition validate_version (package_name : string) (versions : value)
    (acc : list fstring * list fstring) (version : string)
  : M (list fstring * list fstring) :=
  (let '(errors, warnings) := acc in
   version_data <- lift (py_getitem versions version) ;;
   match version_data with
   | VDict vd =>
       if negb (dict_mem "download" vd)
       then ret (errors ++ [missing_download version], warnings)
       else
         download_url <- lift (py_getitem version_data "download") ;;
         r <- validate_version_download_url version download_url ;;
         let '(is_valid, message) := r in
         if negb is_valid
         then ret (errors ++ [invalid_download package_name version message],
                   warnings)
         else print (valid_download package_name version) ;;
              ret (errors, warnings)
   | _ => ret (errors, warnings ++ [legacy_version version])
   end)%M.

Definition validate_package_versions (package_name : string)
    (package_data : value) : M (list fstring * list fstring) :=
  (has_versions <- lift (py_in "versions" package_data) ;;
   if negb has_versions then ret ([missing_versions_data], [])
   else
     versions <- lift (py_getitem package_data "versions") ;;
     keys <- lift (py_keys versions) ;;
     let version_keys :=
       filter (fun k => negb (is_latest k)) keys in
     mfold (validate_version package_name versions) version_keys ([], []))%M.

(** [for error in errors: print(f"❌ {error}"); total_errors += 1]. *)
Definition report_errors (errors : list fstring) (c : counters) : M counters :=
  mfold (fun c error => print (cross error) ;; ret (add_error c))%M errors c.

(** [for warning in warnings: print(f"⚠️ {warning}"); total_warnings += 1]. *)
Definition report_warnings (warnings : list fstring) (c : counters)
  : M counters :=
  mfold (fun c warning => print (warn warning) ;; ret (add_warning c))%M
        warnings c.

(** The body of the loop of [main] over [package_files]. *)
Definition validate_package_file (c : counters) (package_file : string)
  : M counters :=
  (let package_name := package_name_of_file package_file in
   print [FText "📦 Validating package: "; FValue (VStr package_name)] ;;
   let package_path := os_path_join PACKAGES_DIR package_file in
   package_data <- load_json_file package_path ;;
   if is_none package_data then
     print [] ;; ret (add_error c)
   else
     structure_errors <-
       lift (validate_package_structure package_name package_data) ;;
     c <- report_errors structure_errors c ;;
     if negb (is_empty structure_errors) then
       print [] ;; ret c
     else
       r <- validate_package_versions package_name package_data ;;
       let '(version_errors, version_warnings) := r in
       c <- report_errors version_errors c ;;
       c <- report_warnings version_warnings c ;;
       (if is_empty structure_errors && is_empty version_errors
           && is_empty version_warnings
        then print [FText "✅ Package "; FValue (VStr package_name);
                    FText " is valid"]
        else ret tt) ;;
       print [] ;;
       ret c)%M.

(** [main], returning its exit status together with the final values of
    its counters. *)
Definition main_counters : M (Z * counters) :=
  (print [FText "🔍 Validating rainmeas package registry..."; FText nl] ;;
   let c := {| total_errors := 0; total_warnings := 0 |} in
   print (lit "📄 Checking index.json...") ;;
   let index_path := INDEX_FILE in
   index_data <- load_json_file index_path ;;
   if is_none index_data then
     print (lit "❌ Failed to load index.json") ;;
     ret (1%Z, c)
   else
     print [FText "✅ Loaded index.json successfully"; FText nl] ;;
     match listdir_packages w with
     | None =>
         print [FText "❌ Packages directory '"; FValue (VStr PACKAGES_DIR);
                FText "' not found"] ;;
         ret (1%Z, c)
     | Some entries =>
         let package_files :=
           filter (fun f => str_endswith f ".json") entries in
         print [FText "📁 Found ";
                FValue (VInt (Z.of_nat (length package_files)));
                FText " package files"; FText nl] ;;
         print (lit "🔗 Checking index.json consistency...") ;;
         consistency_errors <-
           lift (validate_index_consistency index_data package_files) ;;
         c <- report_errors consistency_errors c ;;
         (if is_empty consistency_errors
          then print (lit "✅ Index.json is consistent with package files")
          else ret tt) ;;
         print [] ;;
         c <- mfold validate_package_file package_files c ;;
         print (lit (str_repeat "=" 50)) ;;
         print (lit "VALIDATION SUMMARY") ;;
         print (lit (str_repeat "=" 50)) ;;
         print [FText "Errors: "; FValue (VInt (total_errors c))] ;;
         print [FText "Warnings: "; FValue (VInt (total_warnings c))] ;;
         if (total_errors c >? 0)%Z then
           print [FText nl; FText "❌ Validation failed!"] ;;
           ret (1%Z, c)
         else
           print [FText nl; FText "✅ All packages validated successfully!"] ;;
           ret (0%Z, c)
     end)%M.

(** [main]: the exit status alone. *)
Definition main : M Z :=
  (r <- main_counters ;; ret (fst r))%M.

(** [sys.exit(main())]: the exit status of the process; an exception
    that escapes [main] ends the interpreter with status 1. *)
Definition exit_status : Z :=
  match fst (main []) with
  | Ok status => status
  | Raise _ => 1%Z
  end.

End World.

(** ** Concrete registries *)

Fixpoint find_file (path : string) (files : list (string * file_read))
  : file_read :=
  match files with
  | [] => FileNotFoundError
  | (name, content) :: files' =>
      if String.eqb path (os_path_join PACKAGES_DIR name) then content
      else find_file path files'
  end.

(** The world of a registry given by the content of [index.json], the files
    of [packages/] and the answers of the network. *)
Definition registry (index : file_read) (files : list (string * file_read))
    (net : nat -> value -> head_outcome) : world :=
  {| read_file := fun path =>
       if String.eqb path INDEX_FILE then index else find_file path files;
     listdir_packages := Some (map fst files);
     requests_head := net |}.

Definition descriptor (name : string) (versions : dict) : value :=
  VDict [("name", VStr name); ("author", VStr "a"); ("description", VStr "d");
         ("versions", VDict versions)].

Definition download (url : string) : value := VDict [("download", VStr url)].

Definition index_foo : file_read := Parsed (VDict [("foo", VDict [])]).

Definition foo_1_0 : value :=
  descriptor "foo" [("latest", VStr "1.0");
                    ("1.0", download "https://example.com/ok")].

Definition always (status_code : Z) : nat -> value -> head_outcome :=
  fun _ _ => Response status_code.


(** The condition the specification puts on [latest]: its value is a key of
    [versions] other than [latest] itself. *)
Definition latest_names_version (versions : dict) (latest : value) : Prop :=
  exists k, In k (dict_keys versions) /\ k <> "latest" /\ latest = VStr k.

(** The file stem in the specification's words: the file name with the
    trailing [suffix] removed (the name itself when it does not end so). *)
Fixpoint remove_suffix (s suffix : string) : string :=
  if String.eqb s suffix then EmptyString
  else match s with
       | EmptyString => EmptyString
       | String c rest => String c (remove_suffix rest suffix)
       end.

Definition file_stem (package_file : string) : string :=
  remove_suffix package_file ".json".

(** [".json"] occurs in [s] at a position that is not the last one. *)
Definition json_before_end (s : string) : Prop :=
  exists pre post, s = (pre ++ ".json" ++ post)%string /\ post <> EmptyString.

(** [removes_json s r]: [r] is [s] without its occurrences of [".json"],
    taken from the left: an occurrence at the front is dropped, any other
    first character is kept. *)
Inductive removes_json : string -> string -> Prop :=
| removes_end : removes_json EmptyString EmptyString
| removes_occurrence (t r : string) :
    removes_json t r -> removes_json (".json" ++ t) r
| removes_copy (c : ascii) (t r : string) :
    (forall t', String c t <> (".json" ++ t')%string) ->
    removes_json t r ->
    removes_json (String c t) (String c r).

(** Number of positions of [s] where [".json"] starts. *)
Fixpoint count_json (s : string) : nat :=
  (if str_startswith s ".json" then 1 else 0) +
  match s with
  | EmptyString => 0
  | String _ rest => count_json rest
  end.

(** ** Specifications of computations *)

Definition not_head : event -> Prop := fun e => is_head e = false.

(** An exception that some HEAD request of the world raises from outside
    the hierarchy of [requests]. *)
Definition foreign (w : world) (e : exn) : Prop :=
  exists name n url,
    e = Uncaught name /\ requests_head w n url = OtherException name.

(** Every HEAD request of the world gives a response or an exception of
    [requests]. *)
Definition network_caught (w : world) : Prop :=
  forall n url name, requests_head w n url <> OtherException name.

(** From every trace [m] only appends events that satisfy [P]; a value it
    returns satisfies [Q] and an exception it raises satisfies [R]. *)
Definition runs {A} (P : event -> Prop) (Q : A -> Prop) (R : exn -> Prop)
    (m : M A) : Prop :=
  forall tr, exists new,
    snd (m tr) = tr ++ new /\ Forall P new /\
    match fst (m tr) with
    | Ok a => Q a
    | Raise e => R e
    end.

(** [n] more errors counted. *)
Definition add_errors (n : nat) (c : counters) : counters :=
  {| total_errors := total_errors c + Z.of_nat n;
     total_warnings := total_warnings c |}.

Definition add_warnings (n : nat) (c : counters) : counters :=
  {| total_errors := total_errors c;
     total_warnings := total_warnings c + Z.of_nat n |}.

(** ** The cases of the URL check, in the specification's words *)

Inductive url_case : Type :=
| UrlValid | UrlNotFound | UrlOtherStatus | UrlTimeout | UrlGenericError.

(** [url_verdict version case outcome r]: the outcome of the HEAD request
    falls under [case], for which the check of [version] returns [r], with
    the message written out. *)
Inductive url_verdict (version : string)
  : url_case -> head_outcome -> bool * fstring -> Prop :=
| verdict_valid :
    url_verdict version UrlValid (Response 200) (true, [FText ""])
| verdict_not_found :
    url_verdict version UrlNotFound (Response 404)
      (false,
       [FText "URL not found (404) for version "; FValue (VStr version)])
| verdict_other_status (status_code : Z) :
    status_code <> 200%Z -> status_code <> 404%Z ->
    url_verdict version UrlOtherStatus (Response status_code)
      (false,
       [FText "HTTP "; FValue (VInt status_code); FText " for version ";
        FValue (VStr version)])
| verdict_timeout (e : string) :
    url_verdict version UrlTimeout (Timeout e)
      (false,
       [FText "Timeout when checking download URL for version ";
        FValue (VStr version)])
| verdict_generic (e : string) :
    url_verdict version UrlGenericError (RequestException e)
      (false,
       [FText "Error checking download URL for version ";
        FValue (VStr version); FText ": "; FExc e]).

(** ** The version entries of a descriptor, by kind *)

(** Keys other than [latest] whose value is not an object. *)
Definition legacy_keys (versions : dict) : list string :=
  map fst (filter (fun kv => negb (is_latest (fst kv)) && negb (is_dict (snd kv)))
                  versions).

(** The download URLs of the entries other than [latest] that are objects
    with a [download] key, in order. *)
Definition checked_urls (versions : dict) : list value :=
  flat_map (fun kv =>
              if is_latest (fst kv) then []
              else match snd kv with
                   | VDict vd =>
                       match dict_lookup "download" vd with
                       | Some url => [url]
                       | None => []
                       end
                   | _ => []
                   end)
           versions.

Definition mixed_versions : dict :=
  [("latest", VStr "1.0");
   ("1.0", download "https://example.com/ok");
   ("0.9", VStr "https://example.com/legacy");
   ("0.8", VDict [])].

Definition index_only (index : file_read) : world :=
  {| read_file := fun path =>
       if String.eqb path INDEX_FILE then index else FileNotFoundError;
     listdir_packages := None;
     requests_head := always 200 |}.

(** ** What one file contributes to a run *)

(** The value [load_json_file] returns for a path. *)
Definition loaded (w : world) (filepath : string) : value :=
  match read_file w filepath with
  | Parsed v => v
  | _ => VNone
  end.

(** The events of [load_json_file] on a path. *)
Definition load_events (w : world) (filepath : string) : trace :=
  EOpen filepath ::
  match read_file w filepath with
  | Parsed _ => []
  | JSONDecodeError e => [EPrint (invalid_json filepath e)]
  | FileNotFoundError => [EPrint (file_not_found filepath)]
  | OtherError e => [EPrint (failed_to_read filepath e)]
  end.

Definition package_path (package_file : string) : string :=
  os_path_join PACKAGES_DIR package_file.

(** The events that open the processing of a package file. *)
Definition package_opening (w : world) (package_file : string) : trace :=
  EPrint [FText "📦 Validating package: ";
          FValue (VStr (package_name_of_file package_file))]
  :: load_events w (package_path package_file).

Definition printed_errors (errors : list fstring) : trace :=
  map (fun error => EPrint (cross error)) errors.

Definition printed_warnings (warnings : list fstring) : trace :=
  map (fun warning => EPrint (warn warning)) warnings.

Definition no_counts : counters := {| total_errors := 0; total_warnings := 0 |}.

(** An event other than the report of [missing_versions_data]. *)
Definition not_missing_versions : event -> Prop :=
  fun e => e <> EPrint (cross missing_versions_data).

(** The package file either does not load or loads a descriptor on which
    the structure validator returns. *)
Definition file_typed (w : world) (package_file : string) : Prop :=
  is_none (loaded w (package_path package_file)) = true \/
  exists errors,
    validate_package_structure (package_name_of_file package_file)
                               (loaded w (package_path package_file))
    = Ok errors.

(** The number of structure errors of a package file that loads. *)
Definition structure_failures (w : world) (package_file : string) : nat :=
  if is_none (loaded w (package_path package_file)) then 0
  else match validate_package_structure
               (package_name_of_file package_file)
               (loaded w (package_path package_file)) with
       | Ok errors => length errors
       | Raise _ => 0
       end.

(** ** What a whole run prints *)

(** The files [main] validates. *)
Definition package_files_of (entries : list string) : list string :=
  filter (fun f => str_endswith f ".json") entries.

(** The events of [main] up to the load of the index. *)
Definition index_events (w : world) : trace :=
  [EPrint [FText "🔍 Validating rainmeas package registry..."; FText nl];
   EPrint (lit "📄 Checking index.json...")]
  ++ load_events w INDEX_FILE.

(** The events of [main] from the loaded index to the consistency check. *)
Definition listing_events (package_files : list string) : trace :=
  [EPrint [FText "✅ Loaded index.json successfully"; FText nl];
   EPrint [FText "📁 Found "; FValue (VInt (Z.of_nat (length package_files)));
           FText " package files"; FText nl];
   EPrint (lit "🔗 Checking index.json consistency...")].

(** The report of the consistency check. *)
Definition consistency_events (consistency_errors : list fstring) : trace :=
  printed_errors consistency_errors
  ++ (if is_empty consistency_errors
      then [EPrint (lit "✅ Index.json is consistent with package files")]
      else [])
  ++ [EPrint []].

(** The summary and the exit status it announces. *)
Definition status_of (c : counters) : Z :=
  if (total_errors c >? 0)%Z then 1%Z else 0%Z.

Definition summary_events (c : counters) : trace :=
  [EPrint (lit (str_repeat "=" 50));
   EPrint (lit "VALIDATION SUMMARY");
   EPrint (lit (str_repeat "=" 50));
   EPrint [FText "Errors: "; FValue (VInt (total_errors c))];
   EPrint [FText "Warnings: "; FValue (VInt (total_warnings c))];
   EPrint (if (total_errors c >? 0)%Z
           then [FText nl; FText "❌ Validation failed!"]
           else [FText nl; FText "✅ All packages validated successfully!"])].

(** Every package file of the listing is typed, and the index is a dict
    when it loads. *)
Definition world_typed (w : world) : Prop :=
  (is_none (loaded w INDEX_FILE) = true \/ is_dict (loaded w INDEX_FILE) = true)
  /\ forall entries, listdir_packages w = Some entries ->
       forall f, In f (package_files_of entries) -> file_typed w f.

Definition total_structure_failures (w : world) (package_files : list string)
  : nat :=
  list_sum (map (structure_failures w) package_files).

(** What [main] returns: status 1 with nothing counted when the index does
    not load or the packages directory is missing, otherwise the status of
    the error counter. *)
Definition main_post (w : world) (status : Z) (c : counters) : Prop :=
  if is_none (loaded w INDEX_FILE) then status = 1%Z /\ c = no_counts
  else match listdir_packages w with
       | None => status = 1%Z /\ c = no_counts
       | Some entries =>
           status = status_of c
           /\ (0 <= total_warnings c)%Z
           /\ (Z.of_nat (total_structure_failures w (package_files_of entries))
               <= total_errors c)%Z
       end.

Definition foo_dangling_latest : value :=
  descriptor "foo" [("latest", VStr "2.0");
                    ("1.0", download "https://example.com/ok")].

Definition foo_legacy : value :=
  descriptor "foo" [("latest", VStr "1.0");
                    ("1.0", VStr "https://example.com/legacy")].

(** The registry of one package [foo] with the given file content. *)
Definition registry_foo (content : file_read) : world :=
  registry index_foo [("foo.json", content)] (always 200).

(** ** Further vocabulary for the properties of the code *)

(** Values Python cannot hash: lists and dicts. *)
Definition unhashable (v : value) : bool :=
  match v with
  | VList _ | VDict _ => true
  | _ => false
  end.

(** The value [package_data.get("name")] of a dict descriptor. *)
Definition name_field (d : dict) : value :=
  match dict_lookup "name" d with
  | Some v => v
  | None => VNone
  end.

Definition empty_descriptor : value := VDict [].

(** The fields of [descriptor name versions]. *)
Definition descriptor_fields (name : string) (versions : dict) : dict :=
  [("name", VStr name); ("author", VStr "a"); ("description", VStr "d");
   ("versions", VDict versions)].

(** The file the first pass of the consistency check expects for a key. *)
Definition expected_file (package_name : string) : string :=
  (package_name ++ ".json")%string.

Definition index_list : file_read := Parsed (VList [VStr "foo"]).

(** The events of the versions validator for a package: a HEAD request or
    the line of a successful check. *)
Definition versions_event (package_name : string) (e : event) : Prop :=
  (exists url, e = EHead url)
  \/ (exists version, e = EPrint (valid_download package_name version)).

Definition is_print (e : event) : bool :=
  match e with EPrint _ => true | _ => false end.

(** The keys the versions validator visits. *)
Definition version_keys (versions : dict) : list string :=
  filter (fun k => negb (is_latest k)) (dict_keys versions).

(** Keys other than [latest] whose value is an object without [download]. *)
Definition no_download_keys (versions : dict) : list string :=
  map fst
      (filter (fun kv =>
                 negb (is_latest (fst kv)) &&
                 match snd kv with
                 | VDict vd => negb (dict_mem "download" vd)
                 | _ => false
                 end)
              versions).

(** The events of the versions validator when every check succeeds: for each
    entry with a download URL, in order, the request and the success line. *)
Definition success_events (package_name : string) (versions : dict) : trace :=
  flat_map (fun kv =>
              if is_latest (fst kv) then []
              else match snd kv with
                   | VDict vd =>
                       match dict_lookup "download" vd with
                       | Some url =>
                           [EHead url;
                            EPrint (valid_download package_name (fst kv))]
                       | None => []
                       end
                   | _ => []
                   end)
           versions.

(** Every HEAD request of the run is answered with status 200. *)
Definition healthy (w : world) : Prop :=
  forall n url, requests_head w n url = Response 200.

Definition is_open (e : event) : bool :=
  match e with EOpen _ => true | _ => false end.

(** The files a trace opens, in order. *)
Definition opens (tr : trace) : list event := filter is_open tr.

(** The least number of errors a package file adds to the counter: one when
    it does not load, its structure errors otherwise. *)
Definition file_min_errors (w : world) (package_file : string) : nat :=
  if is_none (loaded w (package_path package_file)) then 1
  else structure_failures w package_file.

(** The warnings of a package file: the legacy entries of its versions, when
    it loads and passes the structure validator. *)
Definition file_warnings (w : world) (package_file : string) : nat :=
  if is_none (loaded w (package_path package_file)) then 0
  else match validate_package_structure
               (package_name_of_file package_file)
               (loaded w (package_path package_file)) with
       | Ok [] =>
           match loaded w (package_path package_file) with
           | VDict d =>
               match dict_lookup "versions" d with
               | Some (VDict vs) => length (legacy_keys vs)
               | _ => 0
               end
           | _ => 0
           end
       | _ => 0
       end.

Definition foo_null : file_read := Parsed VNone.

Definition not_open : event -> Prop := fun e => is_open e = false.

Definition open_package (package_file : string) : event :=
  EOpen (package_path package_file).

(** The [versions] dict of the descriptor of a package file has no repeated
    key, as every dict built by the JSON parser. *)
Definition versions_wf (w : world) (package_file : string) : Prop :=
  forall d vs,
    loaded w (package_path package_file) = VDict d ->
    dict_lookup "versions" d = Some (VDict vs) ->
    dict_wf vs.

(** A package file whose descriptor passes the structure validator and whose
    version entries are legacy values or objects with a download URL. *)
Definition clean_package (w : world) (package_file : string) : Prop :=
  exists d vs,
    loaded w (package_path package_file) = VDict d
    /\ validate_package_structure (package_name_of_file package_file)
                                  (VDict d) = Ok []
    /\ dict_lookup "versions" d = Some (VDict vs)
    /\ dict_wf vs
    /\ no_download_keys vs = [].

(** What the loop of the versions validator does for the key [k] of
    [versions]: the errors and the warnings it appends and its events.  The
    outcome follows the entry of [k] itself: a warning for a value that is
    not an object, an error for an object without [download], and for an
    object with a download URL the request and either the success line (the
    request is answered 200) or the error with the message of the URL check. *)
Inductive key_outcome (w : world) (package_name : string) (vs : dict)
    (k : string) : list fstring -> list fstring -> trace -> Prop :=
| key_legacy (v : value) :
    dict_lookup k vs = Some v -> is_dict v = false ->
    key_outcome w package_name vs k [] [legacy_version k] []
| key_without_download (vd : dict) :
    dict_lookup k vs = Some (VDict vd) ->
    dict_lookup "download" vd = None ->
    key_outcome w package_name vs k [missing_download k] [] []
| key_valid (vd : dict) (url : value) (n : nat) :
    dict_lookup k vs = Some (VDict vd) ->
    dict_lookup "download" vd = Some url ->
    requests_head w n url = Response 200 ->
    key_outcome w package_name vs k [] []
      [EHead url; EPrint (valid_download package_name k)]
| key_invalid (vd : dict) (url : value) (n : nat) (case : url_case)
    (message : fstring) :
    dict_lookup k vs = Some (VDict vd) ->
    dict_lookup "download" vd = Some url ->
    url_verdict k case (requests_head w n url) (false, message) ->
    key_outcome w package_name vs k
      [invalid_download package_name k message] [] [EHead url].

(** The outcomes of the keys of a list, one after the other. *)
Inductive keys_outcome (w : world) (package_name : string) (vs : dict)
  : list string -> list fstring -> list fstring -> trace -> Prop :=
| keys_done : keys_outcome w package_name vs [] [] [] []
| keys_next (k : string) (keys : list string)
    (errors1 warnings1 errors2 warnings2 : list fstring)
    (new1 new2 : trace) :
    key_outcome w package_name vs k errors1 warnings1 new1 ->
    keys_outcome w package_name vs keys errors2 warnings2 new2 ->
    keys_outcome w package_name vs (k :: keys)
      (errors1 ++ errors2) (warnings1 ++ warnings2) (new1 ++ new2).



(** * Proofs *)

(** One [print] at the head of a computation. *)
Ltac run_print := unfold bind at 1; unfold print at 1, emit at 1.

(** Splits a trace property along the pieces of the trace. *)
Ltac split_trace := repeat first [assumption | apply Forall_app; split].

(** *** Facts about the structure validator *)

Lemma dict_mem_lookup (k : string) (d : dict) :
  dict_mem k d = true <-> exists v, dict_lookup k d = Some v.
Proof.
  unfold dict_mem. destruct (dict_lookup k d) as [v|].
  - split; [intros _; now exists v | reflexivity].
  - split; [discriminate | intros [v H]; discriminate].
Qed.

Lemma dict_mem_In (k : string) (d : dict) :
  dict_mem k d = true <-> In k (dict_keys d).
Proof.
  unfold dict_mem. induction d as [|[k' v] d IH]; simpl.
  - split; [discriminate | contradiction].
  - destruct (String.eqb_spec k k') as [->|Hne].
    + split; [intros _; now left | reflexivity].
    + rewrite IH. split; [now right | intros [E|H]; [congruence | exact H]].
Qed.

(** On a dict the validator never raises before the [latest] test, and its
    errors come in the order of the source: missing fields, name mismatch,
    then the one error of the versions block. *)
Lemma validate_package_structure_dict (package_name : string) (d : dict) :
  validate_package_structure package_name (VDict d) =
  let missing :=
    map missing_required_field
        (filter (fun field => negb (dict_mem field d)) required_fields) in
  let name := match dict_lookup "name" d with Some v => v | None => VNone end in
  let errors :=
    if value_eq_str name package_name then missing
    else missing ++ [name_mismatch name package_name] in
  match dict_lookup "versions" d with
  | None => Ok errors
  | Some (VDict vs) =>
      match dict_lookup "latest" vs with
      | None => Ok (errors ++ [missing_latest])
      | Some latest =>
          rbind (py_in_dict latest vs)
                (fun found => Ok (if found then errors
                                  else errors ++ [latest_not_found latest]))
      end
  | Some _ => Ok (errors ++ [versions_not_object])
  end.
Proof.
  assert (Hm : dict_mem "versions" d =
               match dict_lookup "versions" d with
               | Some _ => true
               | None => false
               end) by reflexivity.
  unfold validate_package_structure, required_fields. simpl. rewrite !Hm.
  clear Hm.
  destruct (dict_lookup "versions" d) as [[| | | | | |vs]|]; simpl;
    destruct (dict_mem "name" d), (dict_mem "author" d),
      (dict_mem "description" d); simpl; try reflexivity;
    unfold dict_mem; destruct (dict_lookup "latest" vs); reflexivity.
Qed.

(** The three messages of the versions block differ from the messages of the
    earlier checks, so their presence is decided by the versions block. *)
Lemma latest_not_found_not_earlier (package_name : string) (d : dict)
    (latest : value) :
  let missing :=
    map missing_required_field
        (filter (fun field => negb (dict_mem field d)) required_fields) in
  let name := match dict_lookup "name" d with Some v => v | None => VNone end in
  ~ In (latest_not_found latest)
       (if value_eq_str name package_name then missing
        else missing ++ [name_mismatch name package_name]).
Proof.
  cbv zeta.
  assert (Hmissing : forall fields,
             ~ In (latest_not_found latest)
                  (map missing_required_field fields)).
  { intros fields Hin. apply in_map_iff in Hin.
    destruct Hin as [f [Hf _]]. discriminate Hf. }
  destruct (value_eq_str _ package_name).
  - apply Hmissing.
  - intros Hin. apply in_app_or in Hin. destruct Hin as [Hin|[Hin|[]]].
    + exact (Hmissing _ Hin).
    + discriminate Hin.
Qed.

(** What the code tests for [latest]: when the value of [latest] is hashable,
    the error is reported exactly when that value is no key of [versions],
    [latest] itself included among the keys. *)
Lemma latest_error_iff_no_key (package_name : string) (d vs : dict)
    (latest : value) (errors : list fstring) :
  dict_lookup "versions" d = Some (VDict vs) ->
  dict_lookup "latest" vs = Some latest ->
  validate_package_structure package_name (VDict d) = Ok errors ->
  (In (latest_not_found latest) errors <->
   ~ exists k, In k (dict_keys vs) /\ latest = VStr k).
Proof.
  intros Hvs Hlatest. rewrite validate_package_structure_dict. cbv zeta.
  rewrite Hvs, Hlatest.
  pose proof (latest_not_found_not_earlier package_name d latest) as Hearly.
  cbv zeta in Hearly.
  set (errs := if value_eq_str _ package_name then _ else _) in *.
  destruct latest as [| b | n | f | s | l | d']; simpl; try discriminate;
    intros H; injection H as <-.
  1-4: split;
    [ intros _ [k [_ Hk]]; discriminate Hk
    | intros _; apply in_or_app; right; now left ].
  destruct (dict_mem s vs) eqn:Hmem.
  - split.
    + intros Hin. contradiction.
    + intros Hno. exfalso. apply Hno. exists s. split; [|reflexivity].
      now apply dict_mem_In.
  - split.
    + intros _ [k [Hk Heq]]. injection Heq as ->.
      apply dict_mem_In in Hk. congruence.
    + intros _. apply in_or_app. right. now left.
Qed.

(** C2. A descriptor that has all four required fields, whose [name] is the
    package name derived from the file name, whose [versions] is a mapping
    with a [latest] key, and whose [latest] value is a key of [versions],
    passes the structure validator with an empty error list. *)
Theorem valid_descriptor_has_no_errors (package_name : string) (d vs : dict)
    (k : string) :
  (forall field, In field required_fields -> dict_mem field d = true) ->
  dict_lookup "name" d = Some (VStr package_name) ->
  dict_lookup "versions" d = Some (VDict vs) ->
  dict_lookup "latest" vs = Some (VStr k) ->
  In k (dict_keys vs) ->
  validate_package_structure package_name (VDict d) = Ok [].
Proof.
  intros Hfields Hname Hvs Hlatest Hk.
  rewrite validate_package_structure_dict. cbv zeta.
  rewrite Hname, Hvs, Hlatest. simpl.
  rewrite String.eqb_refl.
  apply dict_mem_In in Hk. rewrite Hk.
  unfold required_fields in *. simpl.
  rewrite !Hfields by (simpl; tauto). reflexivity.
Qed.

Lemma valid_descriptor_has_no_errors_witness :
  validate_package_structure "foo" foo_1_0 = Ok [].
Proof.
  apply (valid_descriptor_has_no_errors "foo" _
           [("latest", VStr "1.0"); ("1.0", download "https://example.com/ok")]
           "1.0").
  - intros field Hin. simpl in Hin.
    destruct Hin as [<-|[<-|[<-|[<-|[]]]]]; reflexivity.
  - reflexivity.
  - reflexivity.
  - reflexivity.
  - simpl. right. now left.
Defined.

(** A [latest] that is a list or a dict cannot be hashed: the membership
    test raises and the validator returns no error list at all. *)
Lemma unhashable_latest_raises :
  validate_package_structure "foo" (descriptor "foo" [("latest", VList [])])
  = Raise TypeError.
Proof. reflexivity. Qed.

(** C1. On the descriptor whose [versions] is [{"latest": "latest"}] the
    value of [latest] is no key of [versions] other than [latest] itself, and
    the structure validator returns no error at all. *)
Theorem self_referring_latest_is_accepted :
  validate_package_structure "foo" (descriptor "foo" [("latest", VStr "latest")])
    = Ok []
  /\ ~ latest_names_version [("latest", VStr "latest")] (VStr "latest").
Proof.
  split; [reflexivity|].
  intros [k [Hin [Hne Heq]]]. simpl in Hin.
  destruct Hin as [<-|[]]. now apply Hne.
Qed.

(** *** Facts about the index consistency check *)

Lemma append_when_spec {A} (cond : A -> bool) (msg : A -> fstring)
    (xs : list A) (errors : list fstring) :
  append_when cond msg xs errors = errors ++ map msg (filter cond xs).
Proof.
  unfold append_when. revert errors.
  induction xs as [|x xs IH]; intros errors; simpl.
  - now rewrite app_nil_r.
  - rewrite IH. destruct (cond x); simpl; [|reflexivity].
    now rewrite <- app_assoc.
Qed.

Lemma str_in_In (x : string) (xs : list string) :
  str_in x xs = true <-> In x xs.
Proof.
  unfold str_in. rewrite existsb_exists. split.
  - intros [y [Hy Heq]]. apply String.eqb_eq in Heq. now subst.
  - intros Hin. exists x. split; [exact Hin | apply String.eqb_refl].
Qed.

(** The errors of the consistency check on a dict index: one per index key
    without its file, in key order, then one per package file whose derived
    name is no index key, in file order. *)
Lemma validate_index_consistency_dict (index : dict)
    (package_files : list string) :
  validate_index_consistency (VDict index) package_files =
  Ok (map index_without_file
          (filter (fun k => negb (str_in (k ++ ".json")%string package_files))
                  (dict_keys index))
      ++ map file_not_in_index
             (filter (fun f => negb (str_in (package_name_of_file f)
                                            (dict_keys index)))
                     package_files)).
Proof.
  unfold validate_index_consistency. simpl.
  now rewrite !append_when_spec.
Qed.

(** An index that is not a dict has no [keys] method. *)
Lemma validate_index_consistency_not_dict (index_data : value)
    (package_files : list string) :
  is_dict index_data = false ->
  validate_index_consistency index_data package_files = Raise AttributeError.
Proof.
  destruct index_data; simpl; intros H; try reflexivity. discriminate.
Qed.

(** C3. The index [{"a.json": {}}] and the one package file [a.json.json]
    agree: the key has its file [a.json.json], and the stem of the file, its
    name without the trailing [.json], is the key.  The consistency check
    still returns one error, for the file. *)
Theorem consistent_registry_reported_inconsistent :
  let index := [("a.json", VDict [])] in
  let package_files := ["a.json.json"] in
  validate_index_consistency (VDict index) package_files
    = Ok [file_not_in_index "a.json.json"]
  /\ (forall k, In k (dict_keys index) ->
                In (k ++ ".json")%string package_files)
  /\ (forall f, In f package_files -> In (file_stem f) (dict_keys index)).
Proof.
  cbv zeta. split; [reflexivity|]. split.
  - intros k [<-|[]]. now left.
  - intros f [<-|[]]. now left.
Qed.

(** *** Facts about file names *)

Lemma string_length_app (s t : string) :
  String.length (s ++ t) = String.length s + String.length t.
Proof. induction s as [|c s IH]; simpl; [reflexivity | now rewrite IH]. Qed.

Lemma startswith_json_inv (s : string) :
  str_startswith s ".json" = true -> exists t, s = (".json" ++ t)%string.
Proof.
  destruct s as [|c1 [|c2 [|c3 [|c4 [|c5 t]]]]]; cbn [str_startswith];
    rewrite ?Bool.andb_false_r; try discriminate.
  intros H.
  repeat match type of H with
         | (_ && _)%bool = true =>
             apply Bool.andb_true_iff in H;
             let Hc := fresh "Hc" in destruct H as [Hc H];
             apply Ascii.eqb_eq in Hc; subst
         end.
  now exists t.
Qed.

Lemma package_name_skips_json (t : string) :
  package_name_of_file (".json" ++ t) = package_name_of_file t.
Proof. reflexivity. Qed.

Lemma package_name_copies (c : ascii) (rest : string) :
  str_startswith (String c rest) ".json" = false ->
  package_name_of_file (String c rest)
  = String c (package_name_of_file rest).
Proof.
  intros H. unfold package_name_of_file, str_replace.
  cbn [replace_scan]. now rewrite H.
Qed.

Lemma count_json_skips_json (t : string) :
  count_json (".json" ++ t) = 1 + count_json t.
Proof. reflexivity. Qed.

(** Every occurrence of [".json"] is removed: occurrences cannot overlap, so
    the scan from the left meets them all. *)
Lemma package_name_length (s : string) :
  String.length (package_name_of_file s) + 5 * count_json s = String.length s.
Proof.
  assert (Hle : String.length s <= String.length s) by lia.
  revert Hle. generalize (String.length s) at 2 as n. intros n. revert s.
  induction n as [|n IH]; intros s Hle.
  - destruct s; [reflexivity | simpl in Hle; lia].
  - destruct s as [|c rest]; [reflexivity|].
    destruct (str_startswith (String c rest) ".json") eqn:Hstart.
    + destruct (startswith_json_inv _ Hstart) as [t Ht]. rewrite Ht.
      rewrite package_name_skips_json, count_json_skips_json.
      rewrite Ht in Hle. simpl in Hle.
      specialize (IH t ltac:(lia)). simpl String.length. lia.
    + rewrite (package_name_copies _ _ Hstart).
      cbn [count_json]. rewrite Hstart.
      simpl in Hle. specialize (IH rest ltac:(lia)).
      simpl String.length. lia.
Qed.

Lemma count_json_app_ge (pre s : string) :
  count_json s <= count_json (pre ++ s).
Proof.
  induction pre as [|c pre IH]; [reflexivity|].
  change (String c pre ++ s)%string with (String c (pre ++ s)).
  cbn [count_json]. lia.
Qed.

Lemma endswith_json_count (s : string) :
  str_endswith s ".json" = true -> 1 <= count_json s.
Proof.
  induction s as [|c s IH]; [discriminate|].
  cbn [str_endswith]. intros H. apply Bool.orb_true_iff in H.
  destruct H as [H|H].
  - apply String.eqb_eq in H. rewrite H. simpl. lia.
  - specialize (IH H). cbn [count_json]. lia.
Qed.

(** A suffix of [pre ++ t] no longer than [t] is a suffix of [t]. *)
Lemma endswith_app_inv (pre t suffix : string) :
  str_endswith (pre ++ t) suffix = true ->
  str_endswith t suffix = true \/ String.length t < String.length suffix.
Proof.
  induction pre as [|c pre IH]; [now left|].
  change (String c pre ++ t)%string with (String c (pre ++ t)).
  cbn [str_endswith]. intros H. apply Bool.orb_true_iff in H.
  destruct H as [H|H]; [|exact (IH H)].
  apply String.eqb_eq in H. right. rewrite <- H. simpl.
  rewrite string_length_app. lia.
Qed.

Lemma endswith_length (s suffix : string) :
  str_endswith s suffix = true -> String.length suffix <= String.length s.
Proof.
  induction s as [|c s IH]; cbn [str_endswith]; intros H;
    apply Bool.orb_true_iff in H; destruct H as [H|H]; try discriminate.
  - apply String.eqb_eq in H. now subst.
  - apply String.eqb_eq in H. now subst.
  - specialize (IH H). simpl. lia.
Qed.

Lemma remove_suffix_length (s suffix : string) :
  String.length (remove_suffix s suffix)
  = if str_endswith s suffix
    then String.length s - String.length suffix
    else String.length s.
Proof.
  induction s as [|c s IH]; cbn [remove_suffix str_endswith].
  - destruct (String.eqb_spec "" suffix) as [<-|Hne]; reflexivity.
  - destruct (String.eqb_spec (String c s) suffix) as [<-|Hne].
    + simpl. now rewrite Nat.sub_diag.
    + cbn [String.length orb]. rewrite IH.
      destruct (str_endswith s suffix) eqn:Hends; [|reflexivity].
      apply endswith_length in Hends. lia.
Qed.

(** Two occurrences of [".json"] cannot overlap: a name that goes on after
    one occurrence and ends with [".json"] has a later one at its end. *)
Lemma endswith_json_after_json (post : string) :
  post <> EmptyString ->
  str_endswith (".json" ++ post) ".json" = true ->
  str_endswith post ".json" = true.
Proof.
  intros Hne H.
  destruct (endswith_app_inv ".json" post ".json" H) as [Hpost|Hshort];
    [exact Hpost|].
  exfalso.
  destruct post as [|c1 [|c2 [|c3 [|c4 [|c5 post]]]]];
    [ now apply Hne | | | | | simpl in Hshort; lia ];
    cbn [append str_endswith String.eqb] in H;
    repeat match type of H with
           | context [Ascii.eqb ?a ?b] =>
               lazymatch a with
               | Ascii _ _ _ _ _ _ _ _ =>
                   lazymatch b with
                   | Ascii _ _ _ _ _ _ _ _ =>
                       let v := eval vm_compute in (Ascii.eqb a b) in
                       change (Ascii.eqb a b) with v in H
                   end
               end
           end;
    cbn [andb orb] in H;
    repeat match type of H with
           | context [if ?b then _ else _] => destruct b
           end;
    discriminate H.
Qed.

Lemma json_before_end_count (s : string) :
  json_before_end s ->
  (if str_endswith s ".json" then 2 else 1) <= count_json s.
Proof.
  intros [pre [post [-> Hpost]]].
  pose proof (count_json_app_ge pre (".json" ++ post)) as Hge.
  rewrite count_json_skips_json in Hge.
  destruct (str_endswith (pre ++ ".json" ++ post) ".json") eqn:Hends; [|lia].
  destruct (endswith_app_inv pre (".json" ++ post) ".json" Hends)
    as [Hends'|Hshort].
  - apply (endswith_json_after_json post Hpost) in Hends'.
    apply endswith_json_count in Hends'. lia.
  - rewrite string_length_app in Hshort. simpl in Hshort. lia.
Qed.

(** The derived package name of a file is a key of the index exactly when
    the file draws no error from the second pass of the consistency check. *)
Lemma file_error_iff (index : dict) (package_files : list string)
    (errors : list fstring) (f : string) :
  validate_index_consistency (VDict index) package_files = Ok errors ->
  (In (file_not_in_index f) errors <->
   In f package_files /\ ~ In (package_name_of_file f) (dict_keys index)).
Proof.
  rewrite validate_index_consistency_dict. intros H. injection H as <-.
  rewrite in_app_iff, !in_map_iff. split.
  - intros [[k [Hk _]]|[f' [Hf' Hin]]]; [discriminate Hk|].
    injection Hf' as ->. apply filter_In in Hin. destruct Hin as [Hin Hc].
    split; [exact Hin|]. intros Hkey. apply str_in_In in Hkey.
    rewrite Hkey in Hc. discriminate.
  - intros [Hin Hkey]. right. exists f. split; [reflexivity|].
    apply filter_In. split; [exact Hin|].
    destruct (str_in (package_name_of_file f) (dict_keys index)) eqn:E;
      [|reflexivity].
    apply str_in_In in E. contradiction.
Qed.

(** *** Rules for computations *)

Lemma runs_ret {A} (P : event -> Prop) (Q : A -> Prop) (R : exn -> Prop)
    (a : A) :
  Q a -> runs P Q R (ret a).
Proof.
  intros HQ tr. exists []. simpl. rewrite app_nil_r.
  repeat split; [constructor | exact HQ].
Qed.

Lemma runs_bind {A B} (P : event -> Prop) (Q1 : A -> Prop) (Q2 : B -> Prop)
    (R : exn -> Prop) (m : M A) (k : A -> M B) :
  runs P Q1 R m -> (forall a, Q1 a -> runs P Q2 R (k a)) ->
  runs P Q2 R (bind m k).
Proof.
  intros Hm Hk tr. unfold bind.
  destruct (Hm tr) as [new1 [Htr [Hnew1 Hres]]].
  destruct (m tr) as [[a|e] tr1]; cbn [fst snd] in *; subst tr1.
  - destruct (Hk a Hres (tr ++ new1)) as [new2 [Htr [Hnew2 Hres2]]].
    exists (new1 ++ new2). rewrite Htr, app_assoc.
    repeat split; [now apply Forall_app | exact Hres2].
  - exists new1. repeat split; assumption.
Qed.

Lemma runs_mfold {A B} (P : event -> Prop) (I : A -> Prop) (R : exn -> Prop)
    (body : A -> B -> M A) (xs : list B) (acc : A) :
  (forall acc x, I acc -> In x xs -> runs P I R (body acc x)) ->
  I acc -> runs P I R (mfold body xs acc).
Proof.
  revert acc. induction xs as [|x xs IH]; intros acc Hbody Hacc; simpl.
  - now apply runs_ret.
  - apply runs_bind with (Q1 := I).
    + apply Hbody; [exact Hacc | now left].
    + intros a Ha. apply IH; [|exact Ha].
      intros acc' x' Hacc' Hx'. apply Hbody; [exact Hacc' | now right].
Qed.

Lemma foreign_caught (w : world) (e : exn) :
  network_caught w -> ~ foreign w e.
Proof. intros Hnet [name [n [url [_ H]]]]. exact (Hnet n url name H). Qed.

(** *** The URL check *)

Lemma validate_version_download_url_run (w : world) (version : string)
    (download_url : value) (tr : trace) :
  validate_version_download_url w version download_url tr =
  (match requests_head w (length (head_requests tr)) download_url with
   | Response status_code =>
       Ok (if (status_code =? 200)%Z then (true, lit "")
           else if (status_code =? 404)%Z then (false, url_not_found version)
           else (false, http_status status_code version))
   | Timeout _ => Ok (false, url_timeout version)
   | RequestException e => Ok (false, url_error version e)
   | OtherException name => Raise (Uncaught name)
   end,
   tr ++ [EHead download_url]).
Proof.
  unfold validate_version_download_url, bind, head.
  destruct (requests_head w _ download_url) as [status_code|e|e|name];
    try reflexivity.
  destruct (status_code =? 200)%Z; [reflexivity|].
  destruct (status_code =? 404)%Z; reflexivity.
Qed.

(** An exception of the URL check comes from the network. *)
Lemma validate_version_download_url_raises (w : world) (version : string)
    (download_url : value) (tr tr' : trace) (e : exn) :
  validate_version_download_url w version download_url tr = (Raise e, tr') ->
  foreign w e.
Proof.
  rewrite validate_version_download_url_run.
  destruct (requests_head w _ download_url) as [status_code|e0|e0|name] eqn:H;
    try discriminate.
  intros Heq. injection Heq as <- _.
  now exists name, (length (head_requests tr)), download_url.
Qed.

Lemma url_verdict_total (version : string) (outcome : head_outcome) :
  match outcome with
  | OtherException _ => True
  | _ =>
      exists case,
        url_verdict version case outcome
          match outcome with
          | Response status_code =>
              if (status_code =? 200)%Z then (true, lit "")
              else if (status_code =? 404)%Z
                   then (false, url_not_found version)
                   else (false, http_status status_code version)
          | Timeout _ => (false, url_timeout version)
          | RequestException e => (false, url_error version e)
          | OtherException _ => (false, [])
          end
  end.
Proof.
  destruct outcome as [status_code|e|e|name]; [| | |exact I].
  - destruct (Z.eqb_spec status_code 200) as [->|H200].
    + exists UrlValid. constructor.
    + destruct (Z.eqb_spec status_code 404) as [->|H404].
      * exists UrlNotFound. constructor.
      * exists UrlOtherStatus. now constructor.
  - exists UrlTimeout. constructor.
  - exists UrlGenericError. constructor.
Qed.





(** *** The versions of a package *)

Lemma dict_lookup_entry (d : dict) (k : string) (v : value) :
  dict_wf d -> In (k, v) d -> dict_lookup k d = Some v.
Proof.
  unfold dict_wf, dict_keys.
  induction d as [|[k' v'] d IH]; simpl; intros Hwf Hin; [contradiction|].
  inversion Hwf as [|? ? Hnotin Hwf']; subst.
  destruct Hin as [Heq|Hin].
  - injection Heq as -> ->. now rewrite String.eqb_refl.
  - destruct (String.eqb_spec k k') as [->|Hne]; [|now apply IH].
    exfalso. apply Hnotin. apply in_map_iff. now exists (k', v).
Qed.

Lemma version_legacy (w : world) (package_name : string) (vs : dict)
    (errors warnings : list fstring) (version : string) (v : value)
    (tr : trace) :
  dict_lookup version vs = Some v ->
  is_dict v = false ->
  validate_version w package_name (VDict vs) (errors, warnings) version tr
  = (Ok (errors, warnings ++ [legacy_version version]), tr).
Proof.
  intros Hv Hlegacy. unfold validate_version, bind, lift. simpl.
  rewrite Hv. destruct v; try reflexivity. discriminate.
Qed.

Lemma version_without_download (w : world) (package_name : string)
    (vs vd : dict) (errors warnings : list fstring) (version : string)
    (tr : trace) :
  dict_lookup version vs = Some (VDict vd) ->
  dict_lookup "download" vd = None ->
  validate_version w package_name (VDict vs) (errors, warnings) version tr
  = (Ok (errors ++ [missing_download version], warnings), tr).
Proof.
  intros Hv Hd. unfold validate_version, bind, lift. simpl.
  rewrite Hv. unfold dict_mem. now rewrite Hd.
Qed.

(** An object with a download URL: the step is decided by the result of
    the URL check, whose exception leaves the step. *)
Lemma version_with_download (w : world) (package_name : string)
    (vs vd : dict) (errors warnings : list fstring) (version : string)
    (url : value) (tr : trace) :
  dict_lookup version vs = Some (VDict vd) ->
  dict_lookup "download" vd = Some url ->
  exists r,
    validate_version_download_url w version url tr = (r, tr ++ [EHead url])
    /\ validate_version w package_name (VDict vs) (errors, warnings) version tr
       = match r with
         | Ok (is_valid, message) =>
             if is_valid
             then (Ok (errors, warnings),
                   tr ++ [EHead url;
                          EPrint (valid_download package_name version)])
             else (Ok (errors ++
                       [invalid_download package_name version message],
                       warnings),
                   tr ++ [EHead url])
         | Raise e => (Raise e, tr ++ [EHead url])
         end.
Proof.
  intros Hv Hd.
  pose proof (validate_version_download_url_run w version url tr) as Hrun.
  destruct (match requests_head w _ url with Response _ => _ | _ => _ end)
    as [[is_valid message]|e] eqn:Hr in Hrun.
  - exists (Ok (is_valid, message)). split; [exact Hrun|].
    unfold validate_version, bind at 1, lift. simpl. rewrite Hv.
    unfold dict_mem. rewrite Hd. simpl. unfold bind at 1. rewrite Hd.
    unfold bind at 1. rewrite Hrun.
    destruct is_valid; simpl; [|reflexivity].
    unfold bind, print, emit, ret. now rewrite <- app_assoc.
  - exists (Raise e). split; [exact Hrun|].
    unfold validate_version, bind at 1, lift. simpl. rewrite Hv.
    unfold dict_mem. rewrite Hd. simpl. unfold bind at 1. rewrite Hd.
    unfold bind at 1. now rewrite Hrun.
Qed.

Lemma head_requests_app (tr new : trace) :
  head_requests (tr ++ new) = head_requests tr ++ head_requests new.
Proof. apply filter_app. Qed.

(** The loop over the version keys, entry by entry: it returns with the
    warnings of the legacy entries after one request per download URL, unless
    a request raises an exception that the URL check does not catch. *)
Lemma versions_loop (w : world) (package_name : string) (vs entries : dict) :
  (forall k v, In (k, v) entries -> dict_lookup k vs = Some v) ->
  forall errors warnings tr,
    (exists errors' tr',
        mfold (validate_version w package_name (VDict vs))
              (filter (fun k => negb (is_latest k)) (dict_keys entries))
              (errors, warnings) tr
        = (Ok (errors', warnings ++ map legacy_version (legacy_keys entries)),
           tr')
        /\ head_requests tr'
           = head_requests tr ++ map EHead (checked_urls entries))
    \/ (exists e tr',
           mfold (validate_version w package_name (VDict vs))
                 (filter (fun k => negb (is_latest k)) (dict_keys entries))
                 (errors, warnings) tr
           = (Raise e, tr')
           /\ foreign w e).
Proof.
  induction entries as [|[k v] entries IH]; intros Hlook errors warnings tr.
  - left. exists errors, tr. simpl. now rewrite !app_nil_r.
  - assert (Hrest : forall k v, In (k, v) entries ->
                                dict_lookup k vs = Some v)
      by (intros k' v' H; apply Hlook; now right).
    specialize (IH Hrest).
    unfold legacy_keys, checked_urls, dict_keys in *.
    cbn [filter map flat_map fst snd].
    destruct (is_latest k) eqn:Hlatest; cbn [negb andb app].
    { apply IH. }
    assert (Hv : dict_lookup k vs = Some v) by (apply Hlook; now left).
    cbn [mfold]. unfold bind at 1 2.
    destruct (is_dict v) eqn:Hdict; cbn [negb map fst].
    + destruct v as [| | | | | |vd]; try discriminate.
      destruct (dict_lookup "download" vd) as [url|] eqn:Hd.
      * destruct (version_with_download w package_name vs vd errors warnings
                    k url tr Hv Hd) as [r [Hcheck ->]].
        destruct r as [[[|] message]|e].
        -- destruct (IH errors warnings
                        (tr ++ [EHead url;
                                EPrint (valid_download package_name k)]))
             as [[errors' [tr' [-> Hheads]]]|[e [tr' [-> He]]]].
           ++ left. exists errors', tr'. split; [reflexivity|].
              rewrite Hheads, head_requests_app. simpl.
              now rewrite <- app_assoc.
           ++ right. now exists e, tr'.
        -- destruct (IH (errors ++ [invalid_download package_name k message])
                        warnings (tr ++ [EHead url]))
             as [[errors' [tr' [-> Hheads]]]|[e [tr' [-> He]]]].
           ++ left. exists errors', tr'. split; [reflexivity|].
              rewrite Hheads, head_requests_app. simpl.
              now rewrite <- app_assoc.
           ++ right. now exists e, tr'.
        -- right. exists e, (tr ++ [EHead url]). split; [reflexivity|].
           exact (validate_version_download_url_raises _ _ _ _ _ _ Hcheck).
      * rewrite (version_without_download w package_name vs vd errors warnings
                   k tr Hv Hd).
        destruct (IH (errors ++ [missing_download k]) warnings tr)
          as [[errors' [tr' [-> Hheads]]]|[e [tr' [-> He]]]].
        -- left. exists errors', tr'. split; [reflexivity|].
           now rewrite Hheads.
        -- right. now exists e, tr'.
    + rewrite (version_legacy w package_name vs errors warnings k v tr Hv Hdict).
      destruct (IH errors (warnings ++ [legacy_version k]) tr)
        as [[errors' [tr' [-> Hheads]]]|[e [tr' [-> He]]]].
      * left. exists errors', tr'. split.
        -- cbn [map]. now rewrite <- app_assoc.
        -- rewrite Hheads. f_equal.
           destruct v; try reflexivity. discriminate.
      * right. now exists e, tr'.
Qed.

Lemma is_latest_spec (k : string) : is_latest k = true <-> k = "latest".
Proof.
  unfold is_latest. rewrite str_in_In. simpl. split.
  - intros [H|[]]. now symmetry.
  - intros ->. now left.
Qed.

(** C7. In a descriptor whose [versions] is a dict, the loop of
    validate_package_versions runs once over every key other than [latest];
    at a key whose value is not an object it appends one warning and nothing
    else, at an object without [download] it appends one error and sends no
    request, at an object with [download] it runs the URL check once: when
    the check returns a failure the step appends one error, when it returns
    success the step prints one line, and when the check raises the exception
    leaves the loop.  A run that returns has the warnings of the legacy keys
    and has sent the requests of the download URLs, in order; a run raises
    only an exception that the network raised through the URL check, and
    returns when the network raises none. *)
Theorem version_entries_handling (w : world) (package_name : string)
    (d vs : dict) (tr : trace) :
  dict_lookup "versions" d = Some (VDict vs) ->
  dict_wf vs ->
  let version_keys := filter (fun k => negb (is_latest k)) (dict_keys vs) in
  let step := validate_version w package_name (VDict vs) in
  (validate_package_versions w package_name (VDict d) tr
     = mfold step version_keys ([], []) tr
   /\ NoDup version_keys
   /\ forall k, In k version_keys <-> In k (dict_keys vs) /\ k <> "latest")
  /\ (forall k v errors warnings tr1,
         dict_lookup k vs = Some v ->
         match v with
         | VDict vd =>
             match dict_lookup "download" vd with
             | None =>
                 step (errors, warnings) k tr1
                 = (Ok (errors ++ [missing_download k], warnings), tr1)
             | Some url =>
                 exists r,
                   validate_version_download_url w k url tr1
                     = (r, tr1 ++ [EHead url])
                   /\ step (errors, warnings) k tr1
                      = match r with
                        | Ok (is_valid, message) =>
                            if is_valid
                            then (Ok (errors, warnings),
                                  tr1 ++ [EHead url;
                                          EPrint (valid_download
                                                    package_name k)])
                            else (Ok (errors ++
                                      [invalid_download package_name k
                                         message],
                                      warnings),
                                  tr1 ++ [EHead url])
                        | Raise e => (Raise e, tr1 ++ [EHead url])
                        end
             end
         | _ =>
             step (errors, warnings) k tr1
             = (Ok (errors, warnings ++ [legacy_version k]), tr1)
         end)
  /\ (forall errors warnings tr',
         validate_package_versions w package_name (VDict d) tr
           = (Ok (errors, warnings), tr') ->
         warnings = map legacy_version (legacy_keys vs)
         /\ head_requests tr'
            = head_requests tr ++ map EHead (checked_urls vs))
  /\ (forall e tr',
         validate_package_versions w package_name (VDict d) tr
           = (Raise e, tr') ->
         foreign w e)
  /\ (network_caught w ->
      exists errors tr',
        validate_package_versions w package_name (VDict d) tr
          = (Ok (errors, map legacy_version (legacy_keys vs)), tr')
        /\ head_requests tr'
           = head_requests tr ++ map EHead (checked_urls vs)).
Proof.
  intros Hvs Hwf. cbv zeta.
  assert (Hloop : validate_package_versions w package_name (VDict d) tr
                  = mfold (validate_version w package_name (VDict vs))
                          (filter (fun k => negb (is_latest k)) (dict_keys vs))
                          ([], []) tr).
  { unfold validate_package_versions, bind, lift. simpl.
    unfold dict_mem. now rewrite Hvs. }
  pose proof (versions_loop w package_name vs vs
                (fun k v Hin => dict_lookup_entry vs k v Hwf Hin) [] [] tr)
    as Hrun.
  rewrite <- Hloop in Hrun. cbn [app] in Hrun.
  split; [split; [exact Hloop | split]|split; [|split; [|split]]].
  - apply NoDup_filter. exact Hwf.
  - intros k. rewrite filter_In. split.
    + intros [Hin Hk]. split; [exact Hin|].
      intros ->. now rewrite (proj2 (is_latest_spec "latest") eq_refl) in Hk.
    + intros [Hin Hk]. split; [exact Hin|].
      destruct (is_latest k) eqn:E; [|reflexivity].
      apply is_latest_spec in E. contradiction.
  - intros k v errors warnings tr1 Hv.
    destruct v as [| | | | | |vd];
      try exact (version_legacy w package_name vs errors warnings k _ tr1
                   Hv eq_refl).
    destruct (dict_lookup "download" vd) as [url|] eqn:Hd.
    + now apply version_with_download with (vd := vd).
    + now apply version_without_download with (vd := vd).
  - intros errors warnings tr' Heq. rewrite Heq in Hrun.
    destruct Hrun as [[errors' [tr'' [H Hheads]]]|[e [tr'' [H _]]]];
      [|discriminate H].
    injection H as -> -> ->. now split.
  - intros e tr' Heq. rewrite Heq in Hrun.
    destruct Hrun as [[errors' [tr'' [H _]]]|[e' [tr'' [H He']]]];
      [discriminate H|].
    now injection H as -> _.
  - intros Hnet.
    destruct Hrun as [[errors' [tr'' [H Hheads]]]|[e' [tr'' [_ He']]]].
    + now exists errors', tr''.
    + now apply foreign_caught in He'.
Qed.

Lemma mixed_versions_wf : dict_wf mixed_versions.
Proof.
  unfold dict_wf, mixed_versions. simpl.
  repeat (constructor; [simpl; intuition discriminate|]). constructor.
Qed.

Lemma index_only_caught (index : file_read) :
  network_caught (index_only index).
Proof. intros n url name. discriminate. Qed.

Lemma version_entries_handling_witness :
  exists errors tr',
    validate_package_versions (index_only index_foo) "foo"
      (descriptor "foo" mixed_versions) []
      = (Ok (errors, [legacy_version "0.9"]), tr')
    /\ head_requests tr' = [EHead (VStr "https://example.com/ok")].
Proof.
  exact (proj2 (proj2 (proj2 (proj2
           (version_entries_handling (index_only index_foo) "foo"
              [("name", VStr "foo"); ("author", VStr "a");
               ("description", VStr "d");
               ("versions", VDict mixed_versions)]
              mixed_versions [] eq_refl mixed_versions_wf))))
           (index_only_caught index_foo)).
Defined.

(** *** The driver, file by file *)

Lemma load_json_file_run (w : world) (filepath : string) (tr : trace) :
  load_json_file w filepath tr
  = (Ok (loaded w filepath), tr ++ load_events w filepath).
Proof.
  unfold load_json_file, loaded, load_events, bind, emit, print, ret.
  destruct (read_file w filepath); simpl;
    rewrite <- ?app_assoc; reflexivity.
Qed.

Lemma add_errors_step (n : nat) (c : counters) :
  add_errors n (add_error c) = add_errors (S n) c.
Proof. unfold add_errors, add_error. simpl. f_equal. lia. Qed.

Lemma add_warnings_step (n : nat) (c : counters) :
  add_warnings n (add_warning c) = add_warnings (S n) c.
Proof. unfold add_warnings, add_warning. simpl. f_equal. lia. Qed.

Lemma add_errors_0 (c : counters) : add_errors 0 c = c.
Proof. destruct c. unfold add_errors. simpl. f_equal. lia. Qed.

Lemma add_warnings_0 (c : counters) : add_warnings 0 c = c.
Proof. destruct c. unfold add_warnings. simpl. f_equal. lia. Qed.

Lemma report_errors_run (errors : list fstring) (c : counters) (tr : trace) :
  report_errors errors c tr
  = (Ok (add_errors (length errors) c), tr ++ printed_errors errors).
Proof.
  unfold report_errors, printed_errors. revert c tr.
  induction errors as [|error errors IH]; intros c tr; simpl.
  - unfold ret. now rewrite add_errors_0, app_nil_r.
  - specialize (IH (add_error c) (tr ++ [EPrint (cross error)])).
    rewrite add_errors_step, <- app_assoc in IH. exact IH.
Qed.

Lemma report_warnings_run (warnings : list fstring) (c : counters)
    (tr : trace) :
  report_warnings warnings c tr
  = (Ok (add_warnings (length warnings) c), tr ++ printed_warnings warnings).
Proof.
  unfold report_warnings, printed_warnings. revert c tr.
  induction warnings as [|warning warnings IH]; intros c tr; simpl.
  - unfold ret. now rewrite add_warnings_0, app_nil_r.
  - specialize (IH (add_warning c) (tr ++ [EPrint (warn warning)])).
    rewrite add_warnings_step, <- app_assoc in IH. exact IH.
Qed.

(** A package file that does not load: one error counted, nothing else
    done with the file. *)
Lemma package_file_not_loaded (w : world) (c : counters)
    (package_file : string) (tr : trace) :
  is_none (loaded w (package_path package_file)) = true ->
  validate_package_file w c package_file tr
  = (Ok (add_error c),
     tr ++ package_opening w package_file ++ [EPrint []]).
Proof.
  intros Hnone. unfold validate_package_file, package_opening.
  unfold bind at 1. unfold print at 1, emit at 1. unfold bind at 1.
  fold (package_path package_file). rewrite load_json_file_run, Hnone.
  unfold bind, print, emit, ret. simpl.
  rewrite <- !app_assoc. reflexivity.
Qed.

(** A package file whose descriptor has structure errors: they are printed
    and counted, and the versions are not looked at. *)
Lemma package_file_structure_errors (w : world) (c : counters)
    (package_file : string) (tr : trace) (errors : list fstring) :
  is_none (loaded w (package_path package_file)) = false ->
  validate_package_structure (package_name_of_file package_file)
                             (loaded w (package_path package_file))
    = Ok errors ->
  errors <> [] ->
  validate_package_file w c package_file tr
  = (Ok (add_errors (length errors) c),
     tr ++ package_opening w package_file ++ printed_errors errors
        ++ [EPrint []]).
Proof.
  intros Hsome Herrors Hne. unfold validate_package_file, package_opening.
  unfold bind at 1. unfold print at 1, emit at 1. unfold bind at 1.
  fold (package_path package_file). rewrite load_json_file_run, Hsome.
  unfold bind at 1. unfold lift. rewrite Herrors.
  unfold bind at 1. rewrite report_errors_run.
  destruct errors as [|error errors]; [contradiction|].
  cbn [is_empty negb]. unfold bind, print, emit, ret. simpl.
  rewrite <- !app_assoc. reflexivity.
Qed.

(** A package file whose descriptor makes the structure validator raise:
    the exception leaves the driver. *)
Lemma package_file_structure_raises (w : world) (c : counters)
    (package_file : string) (tr : trace) (e : exn) :
  is_none (loaded w (package_path package_file)) = false ->
  validate_package_structure (package_name_of_file package_file)
                             (loaded w (package_path package_file))
    = Raise e ->
  validate_package_file w c package_file tr
  = (Raise e, tr ++ package_opening w package_file).
Proof.
  intros Hsome Hraise. unfold validate_package_file, package_opening.
  unfold bind at 1. unfold print at 1, emit at 1. unfold bind at 1.
  fold (package_path package_file). rewrite load_json_file_run, Hsome.
  unfold bind at 1. unfold lift. rewrite Hraise.
  rewrite <- !app_assoc. reflexivity.
Qed.

(** A package file whose descriptor passes the structure validator: its
    versions are validated, and their errors and warnings counted. *)
Lemma package_file_versions (w : world) (c : counters)
    (package_file : string) (tr : trace) :
  is_none (loaded w (package_path package_file)) = false ->
  validate_package_structure (package_name_of_file package_file)
                             (loaded w (package_path package_file))
    = Ok [] ->
  validate_package_file w c package_file tr
  = bind (validate_package_versions w (package_name_of_file package_file)
            (loaded w (package_path package_file)))
         (fun r =>
            bind (report_errors (fst r) c) (fun c =>
            bind (report_warnings (snd r) c) (fun c =>
            bind (if is_empty (fst r) && is_empty (snd r)
                  then print [FText "✅ Package ";
                              FValue (VStr (package_name_of_file package_file));
                              FText " is valid"]
                  else ret tt) (fun _ =>
            bind (print []) (fun _ => ret c)))))
         (tr ++ package_opening w package_file).
Proof.
  intros Hsome Hok. unfold validate_package_file, package_opening.
  unfold bind at 1. unfold print at 1, emit at 1. unfold bind at 1.
  fold (package_path package_file). rewrite load_json_file_run, Hsome.
  unfold bind at 1. unfold lift. rewrite Hok.
  unfold bind at 1. rewrite report_errors_run.
  cbn [is_empty negb length printed_errors map andb].
  rewrite add_errors_0, app_nil_r, <- app_assoc.
  cbn [app]. unfold bind at 1 6.
  destruct (validate_package_versions w _ _ _) as [[[ve vw]|e] tr1];
    reflexivity.
Qed.

(** *** Reachability of the versions validator *)

(** The structure validator returns on dicts only. *)
Lemma structure_returns_on_dict (package_name : string) (package_data : value)
    (errors : list fstring) :
  validate_package_structure package_name package_data = Ok errors ->
  exists d, package_data = VDict d.
Proof.
  destruct package_data as [| | | | | |d]; try discriminate.
  intros _. now exists d.
Qed.

Lemma missing_fields_nonempty (d : dict) :
  dict_mem "versions" d = false ->
  map missing_required_field
      (filter (fun field => negb (dict_mem field d)) required_fields) <> [].
Proof.
  intros H. unfold required_fields. simpl. rewrite H.
  destruct (dict_mem "name" d), (dict_mem "author" d),
    (dict_mem "description" d); discriminate.
Qed.

(** A descriptor without structure errors has a [versions] dict with a
    [latest] key. *)
Lemma structure_ok_versions (package_name : string) (d : dict) :
  validate_package_structure package_name (VDict d) = Ok [] ->
  exists vs latest,
    dict_lookup "versions" d = Some (VDict vs)
    /\ dict_lookup "latest" vs = Some latest.
Proof.
  rewrite validate_package_structure_dict. cbv zeta.
  pose proof (missing_fields_nonempty d) as Hmissing.
  unfold dict_mem in Hmissing at 1.
  set (missing := map missing_required_field _) in *.
  set (errors := if value_eq_str _ package_name then _ else _).
  assert (Hsnoc : forall e : fstring, errors ++ [e] <> [])
    by (intros e H; now apply app_eq_nil in H).
  destruct (dict_lookup "versions" d) as [[| | | | | |vs]|];
    try (intros H; injection H as H; now apply Hsnoc in H).
  - destruct (dict_lookup "latest" vs) as [latest|] eqn:Hlatest.
    + intros _. now exists vs, latest.
    + intros H; injection H as H; now apply Hsnoc in H.
  - intros H. injection H as H. exfalso. apply Hmissing; [reflexivity|].
    subst errors. destruct (value_eq_str _ package_name); [exact H|].
    now apply app_eq_nil in H.
Qed.

Lemma validate_package_versions_loop (w : world) (package_name : string)
    (d vs : dict) (tr : trace) :
  dict_lookup "versions" d = Some (VDict vs) ->
  validate_package_versions w package_name (VDict d) tr
  = mfold (validate_version w package_name (VDict vs))
          (filter (fun k => negb (is_latest k)) (dict_keys vs)) ([], []) tr.
Proof.
  intros Hvs. unfold validate_package_versions, bind, lift. simpl.
  unfold dict_mem. now rewrite Hvs.
Qed.

Lemma validate_version_runs (w : world) (package_name : string) (vs : dict)
    (acc : list fstring * list fstring) (k : string) :
  In k (dict_keys vs) ->
  ~ In missing_versions_data (fst acc) ->
  runs not_missing_versions
       (fun acc' => ~ In missing_versions_data (fst acc'))
       (foreign w)
       (validate_version w package_name (VDict vs) acc k).
Proof.
  intros Hk Hacc tr. destruct acc as [errors warnings]. simpl in Hacc.
  apply dict_mem_In, dict_mem_lookup in Hk. destruct Hk as [v Hv].
  assert (Hsnoc : forall e, e <> missing_versions_data ->
                            ~ In missing_versions_data (errors ++ [e])).
  { intros e He Hin. apply in_app_or in Hin.
    destruct Hin as [Hin|[Hin|[]]]; [now apply Hacc | now apply He]. }
  destruct (is_dict v) eqn:Hdict.
  - destruct v as [| | | | | |vd]; try discriminate.
    destruct (dict_lookup "download" vd) as [url|] eqn:Hd.
    + destruct (version_with_download w package_name vs vd errors warnings
                  k url tr Hv Hd) as [r [Hcheck ->]].
      destruct r as [[[|] message]|e].
      * eexists. split; [reflexivity|]. split; [|exact Hacc].
        repeat constructor; discriminate.
      * eexists. split; [reflexivity|]. split.
        -- repeat constructor; discriminate.
        -- apply Hsnoc. discriminate.
      * eexists. split; [reflexivity|]. split.
        -- repeat constructor; discriminate.
        -- exact (validate_version_download_url_raises _ _ _ _ _ _ Hcheck).
    + rewrite (version_without_download w package_name vs vd errors warnings
                 k tr Hv Hd).
      exists []. cbn [fst snd]. rewrite app_nil_r.
      split; [reflexivity|]. split; [constructor|].
      apply Hsnoc. discriminate.
  - rewrite (version_legacy w package_name vs errors warnings k v tr Hv Hdict).
    exists []. cbn [fst snd]. rewrite app_nil_r.
    split; [reflexivity|]. split; [constructor | exact Hacc].
Qed.

(** On a descriptor without structure errors the versions validator runs
    its loop: [missing_versions_data] is not among the errors it returns,
    and it raises only what the network raised. *)
Lemma validate_package_versions_runs (w : world) (package_name : string)
    (package_data : value) :
  validate_package_structure package_name package_data = Ok [] ->
  runs not_missing_versions
       (fun r => ~ In missing_versions_data (fst r))
       (foreign w)
       (validate_package_versions w package_name package_data).
Proof.
  intros Hok.
  destruct (structure_returns_on_dict _ _ _ Hok) as [d ->].
  destruct (structure_ok_versions _ _ Hok) as [vs [latest [Hvs _]]].
  intros tr. rewrite (validate_package_versions_loop w package_name d vs tr Hvs).
  revert tr. apply runs_mfold.
  - intros acc k Hacc Hk. apply filter_In in Hk.
    apply validate_version_runs; [exact (proj1 Hk) | exact Hacc].
  - simpl. tauto.
Qed.

(** *** The driver as a whole *)

Lemma print_when_run (b : bool) (line : fstring) (tr : trace) :
  (if b then print line else ret tt) tr
  = (Ok tt, tr ++ if b then [EPrint line] else []).
Proof.
  destruct b; [reflexivity|]. unfold ret. now rewrite app_nil_r.
Qed.

Lemma main_index_not_loaded (w : world) (tr : trace) :
  is_none (loaded w INDEX_FILE) = true ->
  main_counters w tr
  = (Ok (1%Z, no_counts),
     tr ++ index_events w ++ [EPrint (lit "❌ Failed to load index.json")]).
Proof.
  intros Hnone. unfold main_counters, index_events.
  run_print.
  run_print.
  unfold bind at 1. rewrite load_json_file_run, Hnone.
  unfold bind, print, emit, ret. simpl.
  rewrite <- !app_assoc. reflexivity.
Qed.

Lemma main_no_packages_dir (w : world) (tr : trace) :
  is_none (loaded w INDEX_FILE) = false ->
  listdir_packages w = None ->
  main_counters w tr
  = (Ok (1%Z, no_counts),
     tr ++ index_events w
        ++ [EPrint [FText "✅ Loaded index.json successfully"; FText nl];
            EPrint [FText "❌ Packages directory '"; FValue (VStr PACKAGES_DIR);
                    FText "' not found"]]).
Proof.
  intros Hsome Hdir. unfold main_counters, index_events.
  run_print.
  run_print.
  unfold bind at 1. rewrite load_json_file_run, Hsome, Hdir.
  unfold bind, print, emit, ret. simpl.
  rewrite <- !app_assoc. reflexivity.
Qed.

(** From the consistency check on: the run of [main] when the index loads
    and the packages directory is listed. *)
Lemma main_validates (w : world) (tr : trace) (entries : list string) :
  is_none (loaded w INDEX_FILE) = false ->
  listdir_packages w = Some entries ->
  let package_files := package_files_of entries in
  let tr1 := tr ++ index_events w ++ listing_events package_files in
  main_counters w tr
  = match validate_index_consistency (loaded w INDEX_FILE) package_files with
    | Raise e => (Raise e, tr1)
    | Ok consistency_errors =>
        match mfold (validate_package_file w) package_files
                    (add_errors (length consistency_errors) no_counts)
                    (tr1 ++ consistency_events consistency_errors) with
        | (Raise e, tr2) => (Raise e, tr2)
        | (Ok c, tr2) => (Ok (status_of c, c), tr2 ++ summary_events c)
        end
    end.
Proof.
  intros Hsome Hdir. cbv zeta.
  unfold main_counters, index_events, listing_events.
  run_print.
  run_print.
  unfold bind at 1. rewrite load_json_file_run, Hsome, Hdir.
  fold (package_files_of entries).
  run_print.
  run_print.
  run_print.
  unfold bind at 1. unfold lift.
  rewrite <- !app_assoc. cbn [app].
  destruct (validate_index_consistency _ _) as [consistency_errors|e];
    [|reflexivity].
  unfold bind at 1. rewrite report_errors_run.
  fold no_counts.
  unfold bind at 1.
  rewrite print_when_run.
  run_print.
  unfold bind at 1. unfold consistency_events.
  rewrite <- !app_assoc. cbn [app].
  destruct (mfold (validate_package_file w) _ _ _) as [[c|e] tr2];
    [|reflexivity].
  unfold status_of, summary_events, bind, print, emit, ret.
  destruct (total_errors c >? 0)%Z; simpl; rewrite <- !app_assoc; reflexivity.
Qed.

(** *** What a run can print and count *)

Lemma structure_errors_not_missing_versions (package_name : string)
    (package_data : value) (errors : list fstring) :
  validate_package_structure package_name package_data = Ok errors ->
  ~ In missing_versions_data errors.
Proof.
  intros Hok. destruct (structure_returns_on_dict _ _ _ Hok) as [d ->].
  revert Hok. rewrite validate_package_structure_dict. cbv zeta.
  set (missing := map missing_required_field _).
  set (errs := if value_eq_str _ package_name then _ else _).
  assert (Hmissing : ~ In missing_versions_data missing).
  { intros Hin. apply in_map_iff in Hin. destruct Hin as [f [Hf _]].
    discriminate Hf. }
  assert (Herrs : ~ In missing_versions_data errs).
  { subst errs. destruct (value_eq_str _ package_name); [exact Hmissing|].
    intros Hin. apply in_app_or in Hin.
    destruct Hin as [Hin|[Hin|[]]]; [now apply Hmissing | discriminate Hin]. }
  assert (Hsnoc : forall e, e <> missing_versions_data ->
                            ~ In missing_versions_data (errs ++ [e])).
  { intros e He Hin. apply in_app_or in Hin.
    destruct Hin as [Hin|[Hin|[]]]; [now apply Herrs | now apply He]. }
  destruct (dict_lookup "versions" d) as [[| | | | | |vs]|];
    try (intros H; injection H as <-; first [exact Herrs | now apply Hsnoc]).
  destruct (dict_lookup "latest" vs) as [latest|].
  - destruct (py_in_dict latest vs) as [[|]|e]; simpl;
      try discriminate; intros H; injection H as <-;
      [exact Herrs | now apply Hsnoc].
  - intros H; injection H as <-. now apply Hsnoc.
Qed.

Lemma printed_errors_not_missing_versions (errors : list fstring) :
  ~ In missing_versions_data errors ->
  Forall not_missing_versions (printed_errors errors).
Proof.
  intros Hnot. unfold printed_errors. apply Forall_forall.
  intros e Hin. apply in_map_iff in Hin. destruct Hin as [error [<- Hin]].
  intros Heq. injection Heq as ->. contradiction.
Qed.

Lemma printed_warnings_not_missing_versions (warnings : list fstring) :
  Forall not_missing_versions (printed_warnings warnings).
Proof.
  unfold printed_warnings. apply Forall_forall.
  intros e Hin. apply in_map_iff in Hin. destruct Hin as [warning [<- _]].
  discriminate.
Qed.

Lemma load_events_not_missing_versions (w : world) (filepath : string) :
  Forall not_missing_versions (load_events w filepath).
Proof.
  unfold load_events. destruct (read_file w filepath);
    repeat constructor; discriminate.
Qed.

Lemma package_opening_not_missing_versions (w : world) (f : string) :
  Forall not_missing_versions (package_opening w f).
Proof.
  unfold package_opening. constructor; [discriminate|].
  apply load_events_not_missing_versions.
Qed.

(** A package file that passes the structure validator: the driver runs
    the versions validator, reports what it returns, and lets through what
    it raises. *)
Lemma package_file_versions_run (w : world) (c : counters)
    (package_file : string) (tr : trace) :
  is_none (loaded w (package_path package_file)) = false ->
  validate_package_structure (package_name_of_file package_file)
                             (loaded w (package_path package_file))
    = Ok [] ->
  exists new,
    Forall not_missing_versions new
    /\ snd (validate_package_versions w (package_name_of_file package_file)
              (loaded w (package_path package_file))
              (tr ++ package_opening w package_file))
       = (tr ++ package_opening w package_file) ++ new
    /\ match fst (validate_package_versions w
                    (package_name_of_file package_file)
                    (loaded w (package_path package_file))
                    (tr ++ package_opening w package_file)) with
       | Ok (version_errors, version_warnings) =>
           ~ In missing_versions_data version_errors
           /\ validate_package_file w c package_file tr
              = (Ok (add_warnings (length version_warnings)
                       (add_errors (length version_errors) c)),
                 tr ++ package_opening w package_file ++ new
                    ++ printed_errors version_errors
                    ++ printed_warnings version_warnings
                    ++ (if is_empty version_errors
                           && is_empty version_warnings
                        then [EPrint [FText "✅ Package ";
                                      FValue (VStr (package_name_of_file
                                                      package_file));
                                      FText " is valid"]]
                        else [])
                    ++ [EPrint []])
       | Raise e =>
           foreign w e
           /\ validate_package_file w c package_file tr
              = (Raise e, tr ++ package_opening w package_file ++ new)
       end.
Proof.
  intros Hsome Hok.
  destruct (validate_package_versions_runs w _ _ Hok
              (tr ++ package_opening w package_file))
    as [new [Htr [Hnew Hres]]].
  exists new. split; [exact Hnew|]. split; [exact Htr|].
  pose proof (package_file_versions w c package_file tr Hsome Hok) as Hfile.
  unfold bind at 1 in Hfile.
  destruct (validate_package_versions w _ _ _)
    as [[[version_errors version_warnings]|e] tr1];
    cbn [fst snd] in *; subst tr1.
  - split; [exact Hres|]. rewrite Hfile.
    unfold bind at 1. rewrite report_errors_run.
    unfold bind at 1. rewrite report_warnings_run.
    unfold bind at 1. rewrite print_when_run.
    unfold bind, print, emit, ret.
    rewrite <- !app_assoc. reflexivity.
  - split; [exact Hres|]. rewrite Hfile. now rewrite <- app_assoc.
Qed.

(** One package file: what is printed never reports
    [missing_versions_data]; the counters only grow, the error counter by
    at least the number of structure errors; and an exception escapes only
    from an untyped file or from the network. *)
Lemma validate_package_file_spec (w : world) (c : counters) (f : string)
    (tr : trace) :
  exists new,
    snd (validate_package_file w c f tr) = tr ++ new
    /\ Forall not_missing_versions new
    /\ match fst (validate_package_file w c f tr) with
       | Ok c' =>
           (total_errors c + Z.of_nat (structure_failures w f)
            <= total_errors c')%Z
           /\ (total_warnings c <= total_warnings c')%Z
       | Raise e => ~ file_typed w f \/ foreign w e
       end.
Proof.
  unfold structure_failures, file_typed.
  destruct (is_none (loaded w (package_path f))) eqn:Hnone.
  - rewrite (package_file_not_loaded w c f tr Hnone). eexists.
    split; [reflexivity|]. split.
    + apply Forall_app. split; [apply package_opening_not_missing_versions|].
      repeat constructor; discriminate.
    + simpl. lia.
  - destruct (validate_package_structure _ _) as [errors|e] eqn:Hstructure.
    + destruct errors as [|error errors].
      * destruct (package_file_versions_run w c f tr Hnone Hstructure)
          as [new [Hnew [_ Hres]]].
        destruct (fst (validate_package_versions w _ _ _)) as [[ve vw]|e].
        -- destruct Hres as [Hnot ->].
           eexists. split; [reflexivity|]. split.
           ++ repeat (apply Forall_app; split);
                auto using package_opening_not_missing_versions,
                  printed_errors_not_missing_versions,
                  printed_warnings_not_missing_versions.
              ** destruct (is_empty ve && is_empty vw);
                   repeat constructor; discriminate.
              ** repeat constructor; discriminate.
           ++ simpl. lia.
        -- destruct Hres as [Hforeign ->].
           eexists. split; [reflexivity|]. split.
           ++ repeat (apply Forall_app; split);
                auto using package_opening_not_missing_versions.
           ++ now right.
      * rewrite (package_file_structure_errors w c f tr (error :: errors)
                   Hnone Hstructure ltac:(discriminate)).
        eexists. split; [reflexivity|]. split.
        -- repeat (apply Forall_app; split);
             auto using package_opening_not_missing_versions.
           ++ apply printed_errors_not_missing_versions.
              exact (structure_errors_not_missing_versions _ _ _ Hstructure).
           ++ repeat constructor; discriminate.
        -- cbn [fst add_errors total_errors total_warnings]. lia.
    + rewrite (package_file_structure_raises w c f tr e Hnone Hstructure).
      eexists. split; [reflexivity|]. split.
      * apply package_opening_not_missing_versions.
      * simpl. left. intros [H|[errors H]]; discriminate.
Qed.

Lemma packages_loop_spec (w : world) (package_files : list string)
    (c : counters) (tr : trace) :
  exists new,
    snd (mfold (validate_package_file w) package_files c tr) = tr ++ new
    /\ Forall not_missing_versions new
    /\ match fst (mfold (validate_package_file w) package_files c tr) with
       | Ok c' =>
           (total_errors c
            + Z.of_nat (total_structure_failures w package_files)
            <= total_errors c')%Z
           /\ (total_warnings c <= total_warnings c')%Z
       | Raise e =>
           (~ forall f, In f package_files -> file_typed w f) \/ foreign w e
       end.
Proof.
  revert c tr. induction package_files as [|f files IH]; intros c tr.
  - exists []. simpl. rewrite app_nil_r. repeat split; [constructor | lia..].
  - cbn [mfold]. unfold bind.
    destruct (validate_package_file_spec w c f tr) as [new1 [Htr [Hnew1 Hc]]].
    destruct (validate_package_file w c f tr) as [[c1|e] tr1];
      cbn [fst snd] in *; subst tr1.
    + destruct (IH c1 (tr ++ new1)) as [new2 [Htr [Hnew2 Hc']]].
      exists (new1 ++ new2). rewrite Htr, app_assoc.
      split; [reflexivity|]. split; [now apply Forall_app|].
      destruct (fst (mfold _ files c1 (tr ++ new1))) as [c'|e].
      * unfold total_structure_failures in *. simpl.
        rewrite Nat2Z.inj_add. lia.
      * destruct Hc' as [Hc'|Hc']; [left|now right].
        intros Htyped. apply Hc'. intros f' Hf'. apply Htyped. now right.
    + exists new1. split; [reflexivity|]. split; [exact Hnew1|].
      destruct Hc as [Hc|Hc]; [left|now right].
      intros Htyped. apply Hc, Htyped. now left.
Qed.

Lemma index_errors_not_missing_versions (index_data : value)
    (package_files : list string) (errors : list fstring) :
  validate_index_consistency index_data package_files = Ok errors ->
  ~ In missing_versions_data errors.
Proof.
  destruct index_data as [| | | | | |index]; try discriminate.
  rewrite validate_index_consistency_dict. intros H. injection H as <-.
  intros Hin. apply in_app_or in Hin.
  destruct Hin as [Hin|Hin]; apply in_map_iff in Hin;
    destruct Hin as [x [Hx _]]; discriminate Hx.
Qed.

(** A whole run: nothing printed reports [missing_versions_data]; what
    [main] returns is as [main_post] says; an exception escapes only from an
    untyped world or from the network. *)
Lemma main_counters_spec (w : world) (tr : trace) :
  exists new,
    snd (main_counters w tr) = tr ++ new
    /\ Forall not_missing_versions new
    /\ match fst (main_counters w tr) with
       | Ok (status, c) => main_post w status c
       | Raise e => ~ world_typed w \/ foreign w e
       end.
Proof.
  unfold main_post, world_typed.
  assert (Hindex : Forall not_missing_versions (index_events w)).
  { unfold index_events. apply Forall_app. split.
    - repeat constructor; discriminate.
    - apply load_events_not_missing_versions. }
  destruct (is_none (loaded w INDEX_FILE)) eqn:Hnone.
  { rewrite (main_index_not_loaded w tr Hnone). eexists.
    split; [reflexivity|]. split; [|now split].
    apply Forall_app. split; [exact Hindex|].
    repeat constructor; discriminate. }
  destruct (listdir_packages w) as [entries|] eqn:Hdir.
  2:{ rewrite (main_no_packages_dir w tr Hnone Hdir). eexists.
      split; [reflexivity|]. split; [|now split].
      apply Forall_app. split; [exact Hindex|].
      repeat constructor; discriminate. }
  rewrite (main_validates w tr entries Hnone Hdir). cbv zeta.
  assert (Hlisting : Forall not_missing_versions
                            (listing_events (package_files_of entries)))
    by (repeat constructor; discriminate).
  destruct (validate_index_consistency _ _) as [consistency_errors|e]
    eqn:Hconsistency.
  2:{ eexists. split; [reflexivity|]. split; [now apply Forall_app|].
      cbn [fst]. left. intros [[H|H] _]; [discriminate H|].
      destruct (loaded w INDEX_FILE); try discriminate H.
      rewrite validate_index_consistency_dict in Hconsistency.
      discriminate Hconsistency. }
  assert (Hreport : Forall not_missing_versions
                           (consistency_events consistency_errors)).
  { unfold consistency_events. repeat (apply Forall_app; split).
    - apply printed_errors_not_missing_versions.
      exact (index_errors_not_missing_versions _ _ _ Hconsistency).
    - destruct (is_empty consistency_errors);
        repeat constructor; discriminate.
    - repeat constructor; discriminate. }
  match goal with
  | |- context [mfold ?body ?files ?c0 ?tr0] =>
      destruct (packages_loop_spec w files c0 tr0) as [new [Htr [Hnew Hc]]];
      destruct (mfold body files c0 tr0) as [[c|e] tr2]
  end; cbn [fst snd] in *; subst tr2.
  - assert (Hsummary : Forall not_missing_versions (summary_events c)).
    { unfold summary_events.
      repeat (constructor;
              [first [discriminate
                     |destruct (total_errors c >? 0)%Z; discriminate]|]).
      constructor. }
    eexists. rewrite <- !app_assoc. split; [reflexivity|]. split.
    + split_trace.
    + cbn [add_errors no_counts total_errors total_warnings] in Hc.
      split; [reflexivity|]. split; lia.
  - eexists. rewrite <- !app_assoc. split; [reflexivity|]. split.
    + split_trace.
    + destruct Hc as [Hc|Hc]; [left|now right].
      intros [_ Htyped]. apply Hc. intros f Hf.
      now apply (Htyped entries).
Qed.

Lemma main_of_counters (w : world) (tr : trace) :
  main w tr
  = match main_counters w tr with
    | (Ok (status, _), tr') => (Ok status, tr')
    | (Raise e, tr') => (Raise e, tr')
    end.
Proof.
  unfold main, bind, ret.
  destruct (main_counters w tr) as [[[status c]|e] tr']; reflexivity.
Qed.


Lemma structure_failures_le_total (w : world) (f : string)
    (package_files : list string) :
  In f package_files ->
  structure_failures w f <= total_structure_failures w package_files.
Proof.
  unfold total_structure_failures.
  induction package_files as [|f' files IH]; simpl; [contradiction|].
  intros [->|Hin]; [lia|]. specialize (IH Hin). lia.
Qed.

Lemma head_requests_none (tr : trace) :
  Forall not_head tr -> head_requests tr = [].
Proof.
  unfold head_requests, not_head.
  induction 1 as [|e tr He _ IH]; simpl; [reflexivity|]. now rewrite He.
Qed.

Lemma package_opening_not_head (w : world) (f : string) :
  Forall not_head (package_opening w f).
Proof.
  unfold package_opening, load_events.
  destruct (read_file w (package_path f)); repeat constructor.
Qed.

Lemma printed_errors_not_head (errors : list fstring) :
  Forall not_head (printed_errors errors).
Proof.
  unfold printed_errors. apply Forall_forall. intros e Hin.
  apply in_map_iff in Hin. destruct Hin as [x [<- _]]. reflexivity.
Qed.

Lemma startswith_json_false (s : string) :
  str_startswith s ".json" = false <->
  forall t, s <> (".json" ++ t)%string.
Proof.
  split.
  - intros Hfalse t ->. discriminate Hfalse.
  - intros Hno. destruct (str_startswith s ".json") eqn:Hstart; [|reflexivity].
    destruct (startswith_json_inv s Hstart) as [t Ht].
    now apply Hno in Ht.
Qed.

(** The derived name is the removal of the occurrences, and nothing else. *)
Lemma package_name_removes (s : string) :
  removes_json s (package_name_of_file s).
Proof.
  assert (Hle : String.length s <= String.length s) by lia.
  revert Hle. generalize (String.length s) at 2 as n. intros n. revert s.
  induction n as [|n IH]; intros s Hle.
  - destruct s; [constructor | simpl in Hle; lia].
  - destruct s as [|c rest]; [constructor|].
    destruct (str_startswith (String c rest) ".json") eqn:Hstart.
    + destruct (startswith_json_inv _ Hstart) as [t Ht]. rewrite Ht.
      rewrite package_name_skips_json. constructor.
      apply IH. rewrite Ht in Hle. simpl in Hle. lia.
    + rewrite (package_name_copies _ _ Hstart). constructor.
      * now apply startswith_json_false.
      * apply IH. simpl in Hle. lia.
Qed.

Lemma removes_json_package_name (s r : string) :
  removes_json s r -> r = package_name_of_file s.
Proof.
  induction 1 as [|t r _ IH|c t r Hno _ IH].
  - reflexivity.
  - now rewrite package_name_skips_json.
  - rewrite package_name_copies; [now rewrite IH|].
    now apply startswith_json_false.
Qed.

(** C10. The package name derived from a file name is the name with every
    occurrence of [".json"] removed, left to right: the derivation drops an
    occurrence at the front and keeps any other first character, so it is
    the removal [removes_json] and shortens the name by five characters per
    occurrence.  So for a name with [".json"] somewhere before its end, such
    as [a.json.json], it differs from the name without its trailing
    [".json"].  The consistency check decides its second pass by this derived
    name, and the driver prints it and validates the descriptor against
    it. *)
Theorem package_name_removes_every_json :
  (package_name_of_file "" = ""
   /\ (forall t, package_name_of_file (".json" ++ t) = package_name_of_file t)
   /\ (forall c rest,
          (forall t, String c rest <> (".json" ++ t)%string) ->
          package_name_of_file (String c rest)
          = String c (package_name_of_file rest))
   /\ (forall f r, removes_json f r <-> r = package_name_of_file f))
  /\ (forall f, String.length (package_name_of_file f) + 5 * count_json f
                = String.length f)
  /\ (forall f, json_before_end f -> package_name_of_file f <> file_stem f)
  /\ (json_before_end "a.json.json"
      /\ package_name_of_file "a.json.json" = "a"
      /\ file_stem "a.json.json" = "a.json"
      /\ package_name_of_file ".jsonabc" = "abc"
      /\ package_name_of_file "x.json.tar" = "x.tar")
  /\ (forall index package_files errors f,
         validate_index_consistency (VDict index) package_files = Ok errors ->
         (In (file_not_in_index f) errors <->
          In f package_files
          /\ ~ In (package_name_of_file f) (dict_keys index)))
  /\ (forall w c f tr errors,
         is_none (loaded w (package_path f)) = false ->
         validate_package_structure (package_name_of_file f)
                                    (loaded w (package_path f)) = Ok errors ->
         errors <> [] ->
         validate_package_file w c f tr
         = (Ok (add_errors (length errors) c),
            tr ++ (EPrint [FText "📦 Validating package: ";
                           FValue (VStr (package_name_of_file f))]
                   :: load_events w (package_path f))
               ++ printed_errors errors ++ [EPrint []])).
Proof.
  split; [|split; [exact package_name_length|]].
  { split; [reflexivity|]. split; [exact package_name_skips_json|]. split.
    - intros c rest Hno. apply package_name_copies.
      now apply startswith_json_false.
    - intros f r. split; [apply removes_json_package_name|].
      intros ->. apply package_name_removes. }
  split; [|split; [|split]].
  - intros f Hbefore Heq.
    pose proof (package_name_length f) as Hlen.
    pose proof (json_before_end_count f Hbefore) as Hcount.
    pose proof (remove_suffix_length f ".json") as Hstem.
    fold (file_stem f) in Hstem. rewrite <- Heq in Hstem.
    destruct (str_endswith f ".json") eqn:Hends.
    + apply endswith_length in Hends. simpl in Hends, Hstem. lia.
    + lia.
  - split; [|repeat split; reflexivity].
    exists "a", ".json". split; [reflexivity | discriminate].
  - exact file_error_iff.
  - intros w c f tr errors. apply package_file_structure_errors.
Qed.

Lemma package_name_removes_every_json_witness :
  package_name_of_file "a.json.json" <> file_stem "a.json.json"
  /\ package_name_of_file "x.tar" = String "x" (package_name_of_file ".tar")
  /\ validate_package_file (registry_foo (Parsed foo_dangling_latest))
       no_counts "foo.json" []
     = (Ok (add_errors 1 no_counts),
        [EPrint [FText "📦 Validating package: "; FValue (VStr "foo")];
         EOpen "packages/foo.json";
         EPrint (cross (latest_not_found (VStr "2.0")));
         EPrint []]).
Proof.
  split; [|split].
  - apply (proj1 (proj2 (proj2 package_name_removes_every_json))).
    exists "a", ".json". split; [reflexivity | discriminate].
  - apply (proj1 (proj2 (proj2 (proj1 package_name_removes_every_json)))).
    intros t. discriminate.
  - apply (proj2 (proj2 (proj2 (proj2 (proj2 package_name_removes_every_json))))
             (registry_foo (Parsed foo_dangling_latest)) no_counts "foo.json"
             [] [latest_not_found (VStr "2.0")]).
    + reflexivity.
    + reflexivity.
    + discriminate.
Defined.

(** C9. When the structure validator returns no error for a descriptor, the
    descriptor has a [versions] field, so the versions validator does not take
    its early return: it runs its loop, and when it returns its errors do not
    contain [missing_versions_data] (it returns whenever the network raises
    no exception past the URL check).  The driver calls the versions
    validator on such descriptors only, so no run of [main] reports
    [missing_versions_data]. *)
Theorem missing_versions_branch_unreachable (w : world) :
  (forall package_name package_data,
      validate_package_structure package_name package_data = Ok [] ->
      py_in "versions" package_data = Ok true
      /\ (forall tr errors warnings tr',
             validate_package_versions w package_name package_data tr
               = (Ok (errors, warnings), tr') ->
             ~ In missing_versions_data errors)
      /\ (network_caught w ->
          forall tr, exists errors warnings new,
            validate_package_versions w package_name package_data tr
              = (Ok (errors, warnings), tr ++ new)
            /\ ~ In missing_versions_data errors))
  /\ (forall tr,
         ~ In (EPrint (cross missing_versions_data)) tr ->
         ~ In (EPrint (cross missing_versions_data)) (snd (main w tr))).
Proof.
  split.
  - intros package_name package_data Hok. split; [|split].
    + destruct (structure_returns_on_dict _ _ _ Hok) as [d ->].
      destruct (structure_ok_versions _ _ Hok) as [vs [latest [Hvs _]]].
      simpl. unfold dict_mem. now rewrite Hvs.
    + intros tr errors warnings tr' Hrun.
      destruct (validate_package_versions_runs w _ _ Hok tr)
        as [new [_ [_ Hres]]].
      now rewrite Hrun in Hres.
    + intros Hnet tr.
      destruct (validate_package_versions_runs w _ _ Hok tr)
        as [new [Htr [_ Hres]]].
      destruct (validate_package_versions w package_name package_data tr)
        as [[[errors warnings]|e] tr']; cbn [fst snd] in *; subst tr'.
      * now exists errors, warnings, new.
      * now apply foreign_caught in Hres.
  - intros tr Htr. rewrite main_of_counters.
    destruct (main_counters_spec w tr) as [new [Hsnd [Hnew _]]].
    assert (Hall : ~ In (EPrint (cross missing_versions_data)) (tr ++ new)).
    { intros Hin. apply in_app_or in Hin. destruct Hin as [Hin|Hin].
      - now apply Htr.
      - rewrite Forall_forall in Hnew. now apply (Hnew _ Hin). }
    destruct (main_counters w tr) as [[[status c]|e] tr'];
      simpl in *; now subst tr'.
Qed.

Lemma missing_versions_branch_unreachable_witness :
  py_in "versions" foo_1_0 = Ok true
  /\ ~ In (EPrint (cross missing_versions_data))
          (snd (main (registry_foo (Parsed foo_1_0)) [])).
Proof.
  split.
  - apply (proj1 (missing_versions_branch_unreachable
                    (registry_foo (Parsed foo_1_0))) "foo" foo_1_0).
    reflexivity.
  - apply (proj2 (missing_versions_branch_unreachable
                    (registry_foo (Parsed foo_1_0))) []).
    simpl. tauto.
Defined.

(** C8. When [index.json] does not load, [main] returns 1 after opening the
    index alone; when the packages directory is missing, likewise: in both
    runs no package file is opened and no request is sent.  A package file
    that does not load adds one to the error counter, leaves the warning
    counter, and the loop goes on with the remaining files. *)
Theorem load_failures (w : world) :
  (forall filepath,
      match read_file w filepath with
      | Parsed v => loaded w filepath = v
      | JSONDecodeError _ | FileNotFoundError | OtherError _ =>
          is_none (loaded w filepath) = true
      end)
  /\ (is_none (loaded w INDEX_FILE) = true ->
   main_counters w []
   = (Ok (1%Z, no_counts),
      index_events w ++ [EPrint (lit "❌ Failed to load index.json")])
   /\ main w [] = (Ok 1%Z, snd (main_counters w []))
   /\ Forall (fun e => e = EOpen INDEX_FILE \/ exists line, e = EPrint line)
             (snd (main_counters w [])))
  /\ (is_none (loaded w INDEX_FILE) = false ->
      listdir_packages w = None ->
      main_counters w []
      = (Ok (1%Z, no_counts),
         index_events w
         ++ [EPrint [FText "✅ Loaded index.json successfully"; FText nl];
             EPrint [FText "❌ Packages directory '";
                     FValue (VStr PACKAGES_DIR); FText "' not found"]])
      /\ main w [] = (Ok 1%Z, snd (main_counters w []))
      /\ Forall (fun e => e = EOpen INDEX_FILE \/ exists line, e = EPrint line)
                (snd (main_counters w [])))
  /\ (forall c f files tr,
         is_none (loaded w (package_path f)) = true ->
         validate_package_file w c f tr
         = (Ok {| total_errors := total_errors c + 1;
                  total_warnings := total_warnings c |},
            tr ++ package_opening w f ++ [EPrint []])
         /\ mfold (validate_package_file w) (f :: files) c tr
            = mfold (validate_package_file w) files
                    {| total_errors := total_errors c + 1;
                       total_warnings := total_warnings c |}
                    (tr ++ package_opening w f ++ [EPrint []])).
Proof.
  assert (Hindex : Forall (fun e => e = EOpen INDEX_FILE
                                    \/ exists line, e = EPrint line)
                          (index_events w)).
  { unfold index_events, load_events.
    destruct (read_file w INDEX_FILE);
      repeat (constructor; [first [now left | right; eexists; reflexivity]|]);
      constructor. }
  split; [|split; [|split]].
  - intros filepath. unfold loaded.
    destruct (read_file w filepath); reflexivity.
  - intros Hnone. rewrite main_of_counters.
    rewrite (main_index_not_loaded w [] Hnone). cbn [app snd].
    repeat split. apply Forall_app. split; [exact Hindex|].
    repeat (constructor; [right; eexists; reflexivity|]). constructor.
  - intros Hsome Hdir. rewrite main_of_counters.
    rewrite (main_no_packages_dir w [] Hsome Hdir). cbn [app snd].
    repeat split. apply Forall_app. split; [exact Hindex|].
    repeat (constructor; [right; eexists; reflexivity|]). constructor.
  - intros c f files tr Hnone.
    pose proof (package_file_not_loaded w c f tr Hnone) as Hrun.
    split; [exact Hrun|].
    cbn [mfold]. unfold bind. now rewrite Hrun.
Qed.

Lemma load_failures_witness :
  main (index_only FileNotFoundError) []
  = (Ok 1%Z,
     [EPrint [FText "🔍 Validating rainmeas package registry..."; FText nl];
      EPrint (lit "📄 Checking index.json...");
      EOpen "index.json";
      EPrint (file_not_found "index.json");
      EPrint (lit "❌ Failed to load index.json")])
  /\ fst (main (index_only index_foo) []) = Ok 1%Z
  /\ validate_package_file (registry_foo (JSONDecodeError "Expecting value"))
       no_counts "foo.json" []
     = (Ok {| total_errors := 1; total_warnings := 0 |},
        [EPrint [FText "📦 Validating package: "; FValue (VStr "foo")];
         EOpen "packages/foo.json";
         EPrint (invalid_json "packages/foo.json" "Expecting value");
         EPrint []]).
Proof.
  split; [|split].
  - exact (proj1 (proj2 (proj1 (proj2 (load_failures
                                         (index_only FileNotFoundError)))
                           eq_refl))).
  - exact (f_equal fst
             (proj1 (proj2 (proj1 (proj2 (proj2 (load_failures
                                                   (index_only index_foo))))
                              eq_refl eq_refl)))).
  - exact (proj1 (proj2 (proj2 (proj2 (load_failures
                                         (registry_foo
                                            (JSONDecodeError
                                               "Expecting value")))))
                    no_counts "foo.json" [] [] eq_refl)).
Defined.

(** C6. A package whose descriptor has structure errors: the driver prints
    and counts each of them, leaves the warning counter, sends no request and
    goes to the next file without validating the versions.  A descriptor that
    is valid except that its [latest] names no key of [versions] has exactly
    one structure error, and a registry with a package that has structure
    errors exits with status 1. *)
Theorem structure_errors_skip_versions (w : world) :
  (forall c f tr errors,
      is_none (loaded w (package_path f)) = false ->
      validate_package_structure (package_name_of_file f)
                                 (loaded w (package_path f)) = Ok errors ->
      errors <> [] ->
      fst (validate_package_file w c f tr)
      = Ok {| total_errors := total_errors c + Z.of_nat (length errors);
              total_warnings := total_warnings c |}
      /\ snd (validate_package_file w c f tr)
         = tr ++ package_opening w f ++ printed_errors errors ++ [EPrint []]
      /\ head_requests (snd (validate_package_file w c f tr))
         = head_requests tr)
  /\ (forall package_name d vs k,
         (forall field, In field required_fields -> dict_mem field d = true) ->
         dict_lookup "name" d = Some (VStr package_name) ->
         dict_lookup "versions" d = Some (VDict vs) ->
         dict_lookup "latest" vs = Some (VStr k) ->
         ~ In k (dict_keys vs) ->
         validate_package_structure package_name (VDict d)
         = Ok [latest_not_found (VStr k)])
  /\ (forall entries f errors,
         is_none (loaded w INDEX_FILE) = false ->
         listdir_packages w = Some entries ->
         In f (package_files_of entries) ->
         is_none (loaded w (package_path f)) = false ->
         validate_package_structure (package_name_of_file f)
                                    (loaded w (package_path f)) = Ok errors ->
         errors <> [] ->
         exit_status w = 1%Z).
Proof.
  split; [|split].
  - intros c f tr errors Hsome Hstructure Hne.
    rewrite (package_file_structure_errors w c f tr errors Hsome Hstructure Hne).
    cbn [fst snd]. repeat split.
    rewrite !head_requests_app.
    rewrite (head_requests_none _ (package_opening_not_head w f)).
    rewrite (head_requests_none _ (printed_errors_not_head errors)).
    simpl. now rewrite app_nil_r.
  - intros package_name d vs k Hfields Hname Hvs Hlatest Hk.
    rewrite validate_package_structure_dict. cbv zeta.
    rewrite Hname, Hvs, Hlatest. simpl.
    rewrite String.eqb_refl.
    destruct (dict_mem k vs) eqn:Hmem;
      [apply dict_mem_In in Hmem; contradiction|].
    unfold required_fields in *. simpl.
    rewrite !Hfields by (simpl; tauto). reflexivity.
  - intros entries f errors Hindex Hdir Hf Hsome Hstructure Hne.
    unfold exit_status. rewrite main_of_counters.
    pose proof (main_counters_spec w []) as [new [_ [_ Hpost]]].
    destruct (main_counters w []) as [[[status c]|e] tr']; [|reflexivity].
    cbn [fst] in *. unfold main_post in Hpost. rewrite Hindex, Hdir in Hpost.
    destruct Hpost as [-> [_ Hfailures]].
    pose proof (structure_failures_le_total w f _ Hf) as Hle.
    unfold structure_failures in Hle. rewrite Hsome, Hstructure in Hle.
    destruct errors as [|error errors]; [contradiction|]. simpl in Hle.
    unfold status_of.
    destruct (Z.gtb_spec (total_errors c) 0); [reflexivity | lia].
Qed.

Lemma structure_errors_skip_versions_witness :
  validate_package_file (registry_foo (Parsed foo_dangling_latest))
    no_counts "foo.json" []
  = (Ok {| total_errors := 1; total_warnings := 0 |},
     [EPrint [FText "📦 Validating package: "; FValue (VStr "foo")];
      EOpen "packages/foo.json";
      EPrint (cross (latest_not_found (VStr "2.0")));
      EPrint []])
  /\ validate_package_structure "foo" foo_dangling_latest
     = Ok [latest_not_found (VStr "2.0")]
  /\ exit_status (registry_foo (Parsed foo_dangling_latest)) = 1%Z.
Proof.
  set (w := registry_foo (Parsed foo_dangling_latest)).
  destruct (structure_errors_skip_versions w) as [Hstep [Hlatest Hexit]].
  split; [|split].
  - destruct (Hstep no_counts "foo.json" [] [latest_not_found (VStr "2.0")]
                eq_refl eq_refl ltac:(discriminate)) as [Hfst [Hsnd _]].
    rewrite (surjective_pairing (validate_package_file _ _ _ _)).
    now rewrite Hfst, Hsnd.
  - apply (Hlatest "foo" _ [("latest", VStr "2.0");
                            ("1.0", download "https://example.com/ok")] "2.0").
    + intros field Hin. simpl in Hin.
      destruct Hin as [<-|[<-|[<-|[<-|[]]]]]; reflexivity.
    + reflexivity.
    + reflexivity.
    + reflexivity.
    + simpl. intros [H|[H|[]]]; discriminate H.
  - apply (Hexit ["foo.json"] "foo.json" [latest_not_found (VStr "2.0")]).
    + reflexivity.
    + reflexivity.
    + now left.
    + reflexivity.
    + reflexivity.
    + discriminate.
Defined.


(** * Further properties of the code *)

(** ** The structure validator *)

(** The versions block of a dict descriptor adds no missing-field or
    name-mismatch message. *)
Lemma structure_errors_shape (package_name : string) (d : dict)
    (errors : list fstring) :
  validate_package_structure package_name (VDict d) = Ok errors ->
  exists block,
    errors
    = map missing_required_field
          (filter (fun field => negb (dict_mem field d)) required_fields)
      ++ (if value_eq_str (name_field d) package_name then []
          else [name_mismatch (name_field d) package_name])
      ++ block
    /\ length block <= 1
    /\ (forall field, ~ In (missing_required_field field) block)
    /\ (forall n p, ~ In (name_mismatch n p) block)
    /\ (dict_lookup "versions" d = None -> block = []).
Proof.
  rewrite validate_package_structure_dict. cbv zeta. fold (name_field d).
  set (missing := map missing_required_field _).
  assert (Herrs : (if value_eq_str (name_field d) package_name then missing
                   else missing ++ [name_mismatch (name_field d) package_name])
                  = missing
                    ++ (if value_eq_str (name_field d) package_name then []
                        else [name_mismatch (name_field d) package_name])).
  { destruct (value_eq_str _ _); [now rewrite app_nil_r | reflexivity]. }
  rewrite Herrs. clear Herrs.
  set (mismatch := if value_eq_str _ _ then [] else _).
  assert (Hone : forall e : fstring,
             (forall field, e <> missing_required_field field) ->
             (forall n p, e <> name_mismatch n p) ->
             dict_lookup "versions" d <> None ->
             exists block,
               (missing ++ mismatch) ++ [e] = missing ++ mismatch ++ block
               /\ length block <= 1
               /\ (forall field, ~ In (missing_required_field field) block)
               /\ (forall n p, ~ In (name_mismatch n p) block)
               /\ (dict_lookup "versions" d = None -> block = [])).
  { intros e He1 He2 Hv. exists [e].
    split; [now rewrite app_assoc|].
    split; [simpl; lia|].
    split; [intros field [H|[]]; now apply (He1 field)|].
    split; [intros n p [H|[]]; now apply (He2 n p)|].
    intros H. contradiction. }
  assert (Hnone : exists block,
             missing ++ mismatch = missing ++ mismatch ++ block
             /\ length block <= 1
             /\ (forall field, ~ In (missing_required_field field) block)
             /\ (forall n p, ~ In (name_mismatch n p) block)
             /\ (dict_lookup "versions" d = None -> block = [])).
  { exists []. rewrite app_nil_r. split; [reflexivity|].
    split; [simpl; lia|]. repeat split; intros; auto. }
  destruct (dict_lookup "versions" d) as [[| | | | | |vs]|] eqn:Hv;
    try (intros H; injection H as <-;
         first [exact Hnone | apply Hone; intros; discriminate]).
  destruct (dict_lookup "latest" vs) as [latest|].
  - destruct (py_in_dict latest vs) as [[|]|e]; simpl; try discriminate;
      intros H; injection H as <-;
      first [exact Hnone | apply Hone; intros; discriminate].
  - intros H; injection H as <-.
    apply Hone; intros; discriminate.
Qed.

Lemma value_eq_str_spec (v : value) (s : string) :
  value_eq_str v s = true <-> v = VStr s.
Proof.
  destruct v; simpl; try (split; [discriminate | intros H; discriminate H]).
  rewrite String.eqb_eq. split; [now intros -> | now intros [= ->]].
Qed.

(** X1. On a dict descriptor the validator reports each required field that
    is absent exactly once: the missing-field errors come first, in the order
    name, author, description, versions, and no other error has their form. *)
Theorem missing_fields_reported (package_name : string) (d : dict)
    (errors : list fstring) :
  validate_package_structure package_name (VDict d) = Ok errors ->
  (exists rest,
      errors
      = map missing_required_field
            (filter (fun field => negb (dict_mem field d)) required_fields)
        ++ rest
      /\ forall field, ~ In (missing_required_field field) rest)
  /\ (forall field,
         In (missing_required_field field) errors <->
         In field required_fields /\ dict_mem field d = false).
Proof.
  intros Hok.
  destruct (structure_errors_shape _ _ _ Hok)
    as [block [-> [_ [Hblock [_ _]]]]].
  set (mismatch := if value_eq_str _ _ then [] else _).
  assert (Hrest : forall field,
             ~ In (missing_required_field field) (mismatch ++ block)).
  { intros field Hin. apply in_app_or in Hin. destruct Hin as [Hin|Hin].
    - subst mismatch. destruct (value_eq_str _ _); [contradiction|].
      destruct Hin as [Hin|[]]. discriminate Hin.
    - now apply (Hblock field). }
  split; [now exists (mismatch ++ block)|].
  intros field. rewrite in_app_iff, in_map_iff. split.
  - intros [[f [Hf Hin]]|Hin]; [|now apply Hrest in Hin].
    injection Hf as ->. apply filter_In in Hin. destruct Hin as [Hin Hmem].
    split; [exact Hin|]. now destruct (dict_mem field d).
  - intros [Hin Hmem]. left. exists field. split; [reflexivity|].
    apply filter_In. split; [exact Hin | now rewrite Hmem].
Qed.

Lemma missing_fields_reported_witness :
  In (missing_required_field "author")
     [missing_required_field "author"; missing_required_field "description";
      missing_required_field "versions"]
  <-> In "author" required_fields
      /\ dict_mem "author" [("name", VStr "foo")] = false.
Proof.
  exact (proj2 (missing_fields_reported "foo" [("name", VStr "foo")] _ eq_refl)
           "author").
Defined.

(** X2. On a dict descriptor the validator reports a name mismatch exactly
    when the [name] field is not the string of the package name; an absent
    [name] counts as the value [None] and so is a mismatch as well.  It
    reports no mismatch with other names. *)
Theorem name_mismatch_reported (package_name : string) (d : dict)
    (errors : list fstring) :
  validate_package_structure package_name (VDict d) = Ok errors ->
  (In (name_mismatch (name_field d) package_name) errors <->
   dict_lookup "name" d <> Some (VStr package_name))
  /\ (forall n p, In (name_mismatch n p) errors ->
                  n = name_field d /\ p = package_name).
Proof.
  intros Hok.
  destruct (structure_errors_shape _ _ _ Hok)
    as [block [-> [_ [_ [Hblock _]]]]].
  assert (Hmissing : forall n p fields,
             ~ In (name_mismatch n p) (map missing_required_field fields)).
  { intros n p fields Hin. apply in_map_iff in Hin.
    destruct Hin as [f [Hf _]]. discriminate Hf. }
  assert (Hname : value_eq_str (name_field d) package_name = true <->
                  dict_lookup "name" d = Some (VStr package_name)).
  { rewrite value_eq_str_spec. unfold name_field.
    destruct (dict_lookup "name" d) as [v|].
    - split; [now intros -> | now intros [= ->]].
    - split; discriminate. }
  split.
  - rewrite !in_app_iff. split.
    + intros [Hin|[Hin|Hin]].
      * now apply Hmissing in Hin.
      * destruct (value_eq_str _ _); [contradiction|].
        intros H. apply Hname in H. discriminate H.
      * now apply Hblock in Hin.
    + intros Hne. right. left.
      destruct (value_eq_str _ _); [|now left].
      exfalso. now apply Hne, Hname.
  - intros n p Hin. rewrite !in_app_iff in Hin.
    destruct Hin as [Hin|[Hin|Hin]].
    + now apply Hmissing in Hin.
    + destruct (value_eq_str _ _); [contradiction|].
      destruct Hin as [Hin|[]]. injection Hin as <- <-. now split.
    + now apply Hblock in Hin.
Qed.

Lemma name_mismatch_reported_witness :
  In (name_mismatch VNone "foo")
     [missing_required_field "name"; missing_required_field "author";
      missing_required_field "description"; missing_required_field "versions";
      name_mismatch VNone "foo"]
  <-> dict_lookup "name" [] <> Some (VStr "foo").
Proof.
  exact (proj1 (name_mismatch_reported "foo" [] _ eq_refl)).
Defined.

(** X3. The validator returns the empty error list only for valid
    descriptors, and for all of them: a dict with the four required fields,
    whose [name] is the package name, whose [versions] is a dict with a
    [latest] key, and whose [latest] value is a string that is a key of
    [versions]. *)
Theorem no_structure_error_iff (package_name : string) (package_data : value) :
  validate_package_structure package_name package_data = Ok [] <->
  exists d vs k,
    package_data = VDict d
    /\ (forall field, In field required_fields -> dict_mem field d = true)
    /\ dict_lookup "name" d = Some (VStr package_name)
    /\ dict_lookup "versions" d = Some (VDict vs)
    /\ dict_lookup "latest" vs = Some (VStr k)
    /\ In k (dict_keys vs).
Proof.
  split.
  - intros Hok.
    destruct (structure_returns_on_dict _ _ _ Hok) as [d ->].
    destruct (structure_ok_versions _ _ Hok) as [vs [latest [Hvs Hlatest]]].
    destruct (structure_errors_shape _ _ _ Hok) as [block [Hshape _]].
    symmetry in Hshape. apply app_eq_nil in Hshape.
    destruct Hshape as [Hmissing Hrest]. apply app_eq_nil in Hrest.
    destruct Hrest as [Hmismatch _].
    assert (Hfields : forall field, In field required_fields ->
                                    dict_mem field d = true).
    { intros field Hin. destruct (dict_mem field d) eqn:Hmem; [reflexivity|].
      assert (Hf : In field (filter (fun f => negb (dict_mem f d))
                                    required_fields))
        by (apply filter_In; split; [exact Hin | now rewrite Hmem]).
      apply (in_map missing_required_field) in Hf.
      rewrite Hmissing in Hf. contradiction. }
    assert (Hname : dict_lookup "name" d = Some (VStr package_name)).
    { destruct (value_eq_str (name_field d) package_name) eqn:E;
        [|discriminate Hmismatch].
      apply value_eq_str_spec in E. unfold name_field in E.
      destruct (dict_lookup "name" d); [now subst | discriminate E]. }
    revert Hok. rewrite validate_package_structure_dict. cbv zeta.
    rewrite Hvs, Hlatest.
    set (errs := if value_eq_str _ _ then _ else _).
    destruct latest as [| | | | s | |]; simpl; try discriminate;
      try (intros H; injection H as H; now apply app_eq_nil in H).
    destruct (dict_mem s vs) eqn:Hmem.
    + intros _. exists d, vs, s. repeat split; try assumption.
      now apply dict_mem_In.
    + intros H; injection H as H; now apply app_eq_nil in H.
  - intros [d [vs [k [-> [Hfields [Hname [Hvs [Hlatest Hk]]]]]]]].
    rewrite validate_package_structure_dict. cbv zeta.
    rewrite Hname, Hvs, Hlatest. simpl.
    rewrite String.eqb_refl.
    apply dict_mem_In in Hk. rewrite Hk.
    unfold required_fields in *. simpl.
    rewrite !Hfields by (simpl; tauto). reflexivity.
Qed.

(** X4. The [latest] test, as the code makes it: when the value of [latest]
    is a list or a dict the validator raises [TypeError]; otherwise it
    returns, and it reports the latest-not-found error exactly when that value
    is no key of [versions], the key [latest] itself included. *)
Theorem latest_check_behaviour (package_name : string) (d vs : dict)
    (latest : value) :
  dict_lookup "versions" d = Some (VDict vs) ->
  dict_lookup "latest" vs = Some latest ->
  if unhashable latest
  then validate_package_structure package_name (VDict d) = Raise TypeError
  else exists errors,
      validate_package_structure package_name (VDict d) = Ok errors
      /\ (In (latest_not_found latest) errors <->
          ~ exists k, In k (dict_keys vs) /\ latest = VStr k).
Proof.
  intros Hvs Hlatest.
  pose proof (latest_error_iff_no_key package_name d vs latest) as Hiff.
  revert Hiff. rewrite validate_package_structure_dict. cbv zeta.
  rewrite Hvs, Hlatest.
  destruct latest as [| | | | s | |]; simpl; intros Hiff;
    try reflexivity; eexists; (split; [reflexivity|]);
    now apply Hiff.
Qed.

Lemma latest_check_behaviour_witness :
  validate_package_structure "foo" (descriptor "foo" [("latest", VDict [])])
  = Raise TypeError
  /\ exists errors,
       validate_package_structure "foo"
         (descriptor "foo" [("latest", VInt 1); ("1", VDict [])]) = Ok errors
       /\ (In (latest_not_found (VInt 1)) errors <->
           ~ exists k, In k ["latest"; "1"] /\ VInt 1 = VStr k).
Proof.
  split.
  - exact (latest_check_behaviour "foo"
             (descriptor_fields "foo" [("latest", VDict [])])
             [("latest", VDict [])] (VDict []) eq_refl eq_refl).
  - exact (latest_check_behaviour "foo"
             (descriptor_fields "foo" [("latest", VInt 1); ("1", VDict [])])
             [("latest", VInt 1); ("1", VDict [])] (VInt 1) eq_refl eq_refl).
Defined.

(** X5. When the validator raises.  On a descriptor that is not a dict it
    always raises: [AttributeError] for a list or a string (they pass the
    field tests and have no [get]), [TypeError] for [None], a boolean or a
    number.  On a dict it raises only [TypeError], and exactly when
    [versions] is a dict whose [latest] value is a list or a dict. *)
Theorem structure_validator_raises (package_name : string)
    (package_data : value) :
  (is_dict package_data = false ->
   validate_package_structure package_name package_data
   = Raise match package_data with
           | VList _ | VStr _ => AttributeError
           | _ => TypeError
           end)
  /\ (forall d e,
         package_data = VDict d ->
         (validate_package_structure package_name package_data = Raise e <->
          e = TypeError
          /\ exists vs latest,
               dict_lookup "versions" d = Some (VDict vs)
               /\ dict_lookup "latest" vs = Some latest
               /\ unhashable latest = true)).
Proof.
  split.
  - destruct package_data; try reflexivity. discriminate.
  - intros d e ->. rewrite validate_package_structure_dict. cbv zeta.
    split.
    + destruct (dict_lookup "versions" d) as [[| | | | | |vs]|];
        try discriminate.
      destruct (dict_lookup "latest" vs) as [latest|] eqn:Hl; [|discriminate].
      destruct latest as [| | | | | l | d']; simpl; try discriminate;
        intros H; injection H as <-; (split; [reflexivity|]).
      * exists vs, (VList l). now repeat split.
      * exists vs, (VDict d'). now repeat split.
    + intros [-> [vs [latest [-> [-> Hun]]]]].
      destruct latest; try discriminate Hun; reflexivity.
Qed.

Lemma structure_validator_raises_witness :
  validate_package_structure "foo" (VList [VStr "name"]) = Raise AttributeError
  /\ (validate_package_structure "foo"
        (descriptor "foo" [("latest", VList [])]) = Raise TypeError <->
      TypeError = TypeError
      /\ exists vs latest,
           dict_lookup "versions"
             (descriptor_fields "foo" [("latest", VList [])])
           = Some (VDict vs)
           /\ dict_lookup "latest" vs = Some latest
           /\ unhashable latest = true).
Proof.
  split.
  - exact (proj1 (structure_validator_raises "foo" (VList [VStr "name"]))
             eq_refl).
  - exact (proj2 (structure_validator_raises "foo"
                    (descriptor "foo" [("latest", VList [])]))
             (descriptor_fields "foo" [("latest", VList [])]) TypeError
             eq_refl).
Defined.

(** ** The index consistency check *)

Lemma filter_nil_iff {A} (f : A -> bool) (xs : list A) :
  filter f xs = [] <-> forall x, In x xs -> f x = false.
Proof.
  induction xs as [|x xs IH]; simpl.
  - split; [intros _ y [] | reflexivity].
  - destruct (f x) eqn:Hx.
    + split; [discriminate|]. intros H. specialize (H x (or_introl eq_refl)).
      congruence.
    + rewrite IH. split.
      * intros H y [<-|Hy]; [exact Hx | now apply H].
      * intros H y Hy. apply H. now right.
Qed.

(** X6. On a dict index the check returns the empty list exactly when every
    index key has its file [key.json] among the package files and the name
    derived from every package file is an index key. *)
Theorem index_consistent_iff (index : dict) (package_files : list string) :
  validate_index_consistency (VDict index) package_files = Ok [] <->
  (forall k, In k (dict_keys index) -> In (expected_file k) package_files)
  /\ (forall f, In f package_files ->
                In (package_name_of_file f) (dict_keys index)).
Proof.
  rewrite validate_index_consistency_dict. unfold expected_file. split.
  - intros H. injection H as H. apply app_eq_nil in H. destruct H as [H1 H2].
    apply map_eq_nil in H1, H2. rewrite filter_nil_iff in H1, H2. split.
    + intros k Hk. specialize (H1 k Hk). apply str_in_In.
      now destruct (str_in _ package_files).
    + intros f Hf. specialize (H2 f Hf). apply str_in_In.
      now destruct (str_in _ (dict_keys index)).
  - intros [H1 H2]. f_equal.
    replace (filter _ (dict_keys index)) with (@nil string).
    + replace (filter _ package_files) with (@nil string); [reflexivity|].
      symmetry. apply filter_nil_iff. intros f Hf.
      now rewrite (proj2 (str_in_In _ _) (H2 f Hf)).
    + symmetry. apply filter_nil_iff. intros k Hk.
      now rewrite (proj2 (str_in_In _ _) (H1 k Hk)).
Qed.

(** X7. On a dict index the check reports a key exactly when its file
    [key.json] is not among the package files; every error it returns is
    about one index key or one package file, so there are at most as many
    errors as keys and files together. *)
Theorem index_key_errors (index : dict) (package_files : list string)
    (errors : list fstring) :
  validate_index_consistency (VDict index) package_files = Ok errors ->
  (forall k, In (index_without_file k) errors <->
             In k (dict_keys index) /\ ~ In (expected_file k) package_files)
  /\ (forall e, In e errors ->
                (exists k, In k (dict_keys index) /\ e = index_without_file k)
                \/ (exists f, In f package_files /\ e = file_not_in_index f))
  /\ length errors <= length (dict_keys index) + length package_files.
Proof.
  rewrite validate_index_consistency_dict. intros H. injection H as <-.
  unfold expected_file. split; [|split].
  - intros k. rewrite in_app_iff, !in_map_iff. split.
    + intros [[k' [Hk' Hin]]|[f [Hf _]]]; [|discriminate Hf].
      injection Hk' as ->. apply filter_In in Hin. destruct Hin as [Hin Hc].
      split; [exact Hin|]. intros Hfile. apply str_in_In in Hfile.
      rewrite Hfile in Hc. discriminate.
    + intros [Hin Hfile]. left. exists k. split; [reflexivity|].
      apply filter_In. split; [exact Hin|].
      destruct (str_in _ package_files) eqn:E; [|reflexivity].
      apply str_in_In in E. contradiction.
  - intros e Hin. apply in_app_or in Hin.
    destruct Hin as [Hin|Hin]; apply in_map_iff in Hin;
      destruct Hin as [x [<- Hx]]; apply filter_In in Hx.
    + left. exists x. now split.
    + right. exists x. now split.
  - rewrite length_app, !length_map.
    pose proof (filter_length_le
                  (fun k => negb (str_in (k ++ ".json")%string package_files))
                  (dict_keys index)).
    pose proof (filter_length_le
                  (fun f => negb (str_in (package_name_of_file f)
                                         (dict_keys index)))
                  package_files).
    lia.
Qed.

Lemma index_key_errors_witness :
  In (index_without_file "foo") [index_without_file "foo"]
  <-> In "foo" (dict_keys [("foo", VDict [])])
      /\ ~ In (expected_file "foo") [].
Proof.
  exact (proj1 (index_key_errors [("foo", VDict [])] [] _ eq_refl) "foo").
Defined.

(** Evaluates the comparisons of two literal characters in the goal. *)
Ltac eval_ascii_eqb :=
  repeat match goal with
         | |- context [Ascii.eqb ?a ?b] =>
             lazymatch a with
             | Ascii _ _ _ _ _ _ _ _ =>
                 lazymatch b with
                 | Ascii _ _ _ _ _ _ _ _ =>
                     let v := eval vm_compute in (Ascii.eqb a b) in
                     change (Ascii.eqb a b) with v
                 end
             end
         end.

(** Appending [".json"] to a non-empty name starts no occurrence of
    [".json"] at its first character. *)
Lemma startswith_json_app (x : string) :
  x <> EmptyString ->
  str_startswith (x ++ ".json") ".json" = str_startswith x ".json".
Proof.
  intros Hne.
  destruct x as [|c1 [|c2 [|c3 [|c4 [|c5 t]]]]];
    [contradiction | | | | | reflexivity];
    cbn [append str_startswith]; eval_ascii_eqb;
    cbn [andb]; rewrite ?Bool.andb_false_r; reflexivity.
Qed.

Lemma package_name_of_expected_file (name : string) :
  count_json name = 0 -> package_name_of_file (expected_file name) = name.
Proof.
  unfold expected_file.
  induction name as [|c rest IH]; [reflexivity|].
  cbn [count_json]. intros Hcount.
  destruct (str_startswith (String c rest) ".json") eqn:Hstart;
    [discriminate Hcount|].
  change (String c rest ++ ".json")%string
    with (String c (rest ++ ".json")).
  rewrite package_name_copies.
  - now rewrite IH.
  - change (String c (rest ++ ".json"))
      with (String c rest ++ ".json")%string.
    rewrite startswith_json_app; [exact Hstart | discriminate].
Qed.

(** X8. For a package name in which [".json"] does not occur, the name
    derived from its expected file [name.json] is the name again.  So an
    index whose keys are such names and whose package files are exactly the
    expected files of its keys is found consistent. *)
Theorem expected_file_round_trip :
  (forall name,
      count_json name = 0 ->
      package_name_of_file (expected_file name) = name)
  /\ (forall index,
         (forall k, In k (dict_keys index) -> count_json k = 0) ->
         validate_index_consistency (VDict index)
           (map expected_file (dict_keys index)) = Ok []).
Proof.
  split; [exact package_name_of_expected_file|].
  intros index Hkeys. rewrite validate_index_consistency_dict. f_equal.
  replace (filter _ (dict_keys index)) with (@nil string).
  - replace (filter _ (map expected_file (dict_keys index)))
      with (@nil string); [reflexivity|].
    symmetry. apply filter_nil_iff. intros f Hf.
    apply in_map_iff in Hf. destruct Hf as [k [<- Hk]].
    rewrite (package_name_of_expected_file k (Hkeys k Hk)).
    now rewrite (proj2 (str_in_In _ _) Hk).
  - symmetry. apply filter_nil_iff. intros k Hk.
    assert (Hin : In (k ++ ".json")%string
                     (map expected_file (dict_keys index)))
      by (apply in_map_iff; now exists k).
    now rewrite (proj2 (str_in_In _ _) Hin).
Qed.

Lemma expected_file_round_trip_witness :
  package_name_of_file (expected_file "my.pkg") = "my.pkg"
  /\ validate_index_consistency
       (VDict [("foo", VDict []); ("my.pkg", VDict [])])
       ["foo.json"; "my.pkg.json"] = Ok [].
Proof.
  split.
  - exact (proj1 expected_file_round_trip "my.pkg" eq_refl).
  - apply (proj2 expected_file_round_trip
             [("foo", VDict []); ("my.pkg", VDict [])]).
    intros k [<-|[<-|[]]]; reflexivity.
Defined.

(** X9. An index that loads as something other than a dict (a JSON array,
    string, number or boolean) has no [keys]: [main] raises [AttributeError]
    at the consistency check, after listing the packages directory and before
    it opens any package file, and the process ends with status 1. *)
Theorem index_not_a_dict (w : world) (entries : list string) (tr : trace) :
  is_none (loaded w INDEX_FILE) = false ->
  is_dict (loaded w INDEX_FILE) = false ->
  listdir_packages w = Some entries ->
  main_counters w tr
  = (Raise AttributeError,
     tr ++ index_events w ++ listing_events (package_files_of entries))
  /\ fst (main w tr) = Raise AttributeError
  /\ exit_status w = 1%Z.
Proof.
  intros Hsome Hdict Hdir.
  assert (Hrun : forall tr',
             main_counters w tr'
             = (Raise AttributeError,
                tr' ++ index_events w
                    ++ listing_events (package_files_of entries))).
  { intros tr'. rewrite (main_validates w tr' entries Hsome Hdir). cbv zeta.
    now rewrite (validate_index_consistency_not_dict _ _ Hdict). }
  split; [apply Hrun|]. split.
  - now rewrite main_of_counters, Hrun.
  - unfold exit_status. now rewrite main_of_counters, Hrun.
Qed.

Lemma index_not_a_dict_witness :
  main_counters (registry index_list [("foo.json", Parsed foo_1_0)]
                          (always 200)) []
  = (Raise AttributeError,
     [EPrint [FText "🔍 Validating rainmeas package registry..."; FText nl];
      EPrint (lit "📄 Checking index.json...");
      EOpen "index.json";
      EPrint [FText "✅ Loaded index.json successfully"; FText nl];
      EPrint [FText "📁 Found "; FValue (VInt 1); FText " package files";
              FText nl];
      EPrint (lit "🔗 Checking index.json consistency...")]).
Proof.
  exact (proj1 (index_not_a_dict
                  (registry index_list [("foo.json", Parsed foo_1_0)]
                            (always 200))
                  ["foo.json"] [] eq_refl eq_refl eq_refl)).
Defined.

(** ** The versions validator *)

(** One step of the loop over the version keys: it has the outcome of its
    key, unless the request raises an exception the URL check does not
    catch. *)
Lemma validate_version_accounting (w : world) (package_name : string)
    (vs : dict) (k : string) (errors warnings : list fstring) (tr : trace) :
  In k (dict_keys vs) ->
  match validate_version w package_name (VDict vs) (errors, warnings) k tr with
  | (Ok (errors', warnings'), tr') =>
      exists errors1 warnings1 new,
        errors' = errors ++ errors1 /\ warnings' = warnings ++ warnings1
        /\ tr' = tr ++ new
        /\ key_outcome w package_name vs k errors1 warnings1 new
  | (Raise e, tr') => foreign w e /\ exists url, tr' = tr ++ [EHead url]
  end.
Proof.
  intros Hk. apply dict_mem_In, dict_mem_lookup in Hk. destruct Hk as [v Hv].
  destruct (is_dict v) eqn:Hdict.
  - destruct v as [| | | | | |vd]; try discriminate.
    destruct (dict_lookup "download" vd) as [url|] eqn:Hd.
    + destruct (version_with_download w package_name vs vd errors warnings
                  k url tr Hv Hd) as [r [Hcheck ->]].
      pose proof Hcheck as Hrun.
      rewrite validate_version_download_url_run in Hrun.
      injection Hrun as Hr.
      destruct r as [[[|] message]|e].
      * exists [], [], [EHead url; EPrint (valid_download package_name k)].
        rewrite !app_nil_r. repeat split.
        apply (key_valid w package_name vs k vd url (length (head_requests tr)));
          [exact Hv | exact Hd |].
        destruct (requests_head w _ url) as [status_code|e|e|name];
          try discriminate Hr.
        injection Hr as Hr.
        destruct (Z.eqb_spec status_code 200) as [H200|H200];
          [now rewrite H200|].
        destruct (status_code =? 404)%Z; discriminate Hr.
      * exists [invalid_download package_name k message], [], [EHead url].
        rewrite app_nil_r. repeat split.
        pose proof (url_verdict_total k
                      (requests_head w (length (head_requests tr)) url))
          as Htotal.
        destruct (requests_head w (length (head_requests tr)) url)
          as [status_code|e|e|name] eqn:Hout; try discriminate Hr;
          destruct Htotal as [case Hcase]; injection Hr as Hr;
          rewrite Hr in Hcase;
          apply (key_invalid w package_name vs k vd url
                   (length (head_requests tr)) case message Hv Hd);
          now rewrite Hout.
      * split; [exact (validate_version_download_url_raises _ _ _ _ _ _ Hcheck)|].
        now exists url.
    + rewrite (version_without_download w package_name vs vd errors warnings
                 k tr Hv Hd).
      exists [missing_download k], [], [].
      rewrite !app_nil_r. repeat split.
      exact (key_without_download w package_name vs k vd Hv Hd).
  - rewrite (version_legacy w package_name vs errors warnings k v tr Hv Hdict).
    exists [], [legacy_version k], [].
    rewrite !app_nil_r. repeat split.
    exact (key_legacy w package_name vs k v Hv Hdict).
Qed.

Lemma key_outcome_events (w : world) (package_name : string) (vs : dict)
    (k : string) (errors warnings : list fstring) (new : trace) :
  key_outcome w package_name vs k errors warnings new ->
  Forall (versions_event package_name) new
  /\ length errors + length warnings + length (filter is_print new) = 1
  /\ length (head_requests new) <= 1.
Proof.
  intros H. destruct H; simpl; repeat split; try lia;
    repeat (constructor; [first [left; now eexists | right; now eexists]|]);
    constructor.
Qed.

Lemma keys_outcome_events (w : world) (package_name : string) (vs : dict)
    (keys : list string) (errors warnings : list fstring) (new : trace) :
  keys_outcome w package_name vs keys errors warnings new ->
  Forall (versions_event package_name) new
  /\ length errors + length warnings + length (filter is_print new)
     = length keys
  /\ length (head_requests new) <= length keys.
Proof.
  intros H. induction H as [|k keys e1 w1 e2 w2 new1 new2 Hkey _ IH].
  - simpl. repeat split; [constructor | lia].
  - destruct (key_outcome_events _ _ _ _ _ _ _ Hkey) as [Hev [Hcount Hheads]].
    destruct IH as [Hev' [Hcount' Hheads']].
    split; [now apply Forall_app|].
    rewrite head_requests_app, filter_app, !length_app. cbn [length]. lia.
Qed.

(** The loop over the version keys: each key has its outcome, in order, and
    an exception leaves the loop only from a request. *)
Lemma versions_loop_accounting (w : world) (package_name : string) (vs : dict)
    (keys : list string) :
  (forall k, In k keys -> In k (dict_keys vs)) ->
  forall errors warnings tr,
    match mfold (validate_version w package_name (VDict vs)) keys
                (errors, warnings) tr with
    | (Ok (errors', warnings'), tr') =>
        exists errors2 warnings2 new,
          errors' = errors ++ errors2 /\ warnings' = warnings ++ warnings2
          /\ tr' = tr ++ new
          /\ keys_outcome w package_name vs keys errors2 warnings2 new
    | (Raise e, tr') =>
        foreign w e
        /\ exists new, tr' = tr ++ new
                       /\ Forall (versions_event package_name) new
    end.
Proof.
  induction keys as [|k keys IH]; intros Hkeys errors warnings tr.
  - exists [], [], []. rewrite !app_nil_r. repeat split. constructor.
  - pose proof (validate_version_accounting w package_name vs k errors warnings
                  tr (Hkeys k (or_introl eq_refl))) as Hstep.
    cbn [mfold]. unfold bind at 1.
    destruct (validate_version w package_name (VDict vs) (errors, warnings) k tr)
      as [[[errors1 warnings1]|e] tr1].
    + destruct Hstep as [e1 [w1 [new1 [-> [-> [-> Hkey]]]]]].
      pose proof (IH (fun k' Hk' => Hkeys k' (or_intror Hk'))
                     (errors ++ e1) (warnings ++ w1) (tr ++ new1)) as Hrest.
      destruct (mfold _ keys (errors ++ e1, warnings ++ w1) (tr ++ new1))
        as [[[errors2 warnings2]|e] tr2].
      * destruct Hrest as [e2 [w2 [new2 [-> [-> [-> Hkeys2]]]]]].
        exists (e1 ++ e2), (w1 ++ w2), (new1 ++ new2).
        rewrite !app_assoc. repeat split. now constructor.
      * destruct Hrest as [He [new2 [-> Hnew2]]].
        split; [exact He|]. exists (new1 ++ new2).
        rewrite app_assoc. split; [reflexivity|].
        apply Forall_app. split; [|exact Hnew2].
        exact (proj1 (key_outcome_events _ _ _ _ _ _ _ Hkey)).
    + destruct Hstep as [He [url ->]].
      split; [exact He|]. exists [EHead url]. split; [reflexivity|].
      constructor; [left; now eexists | constructor].
Qed.

(** X10. The versions validator on a dict descriptor.  Without a [versions]
    key it returns the single error "Missing versions data" and does nothing;
    with a [versions] that is not a dict it raises [AttributeError] before
    any request.  With a [versions] dict, a run that returns has visited the
    keys other than [latest] once each and in order: its errors, warnings and
    events are those of the outcomes of these keys, one after the other, so
    each key is accounted for by exactly one error, one warning or one success
    line, after at most one request.  A run that raises does so with an
    exception of a request that the URL check does not catch, after requests
    and success lines only; when no request raises such an exception the
    validator returns. *)
Theorem versions_validator_on_dict (w : world) (package_name : string)
    (d : dict) (tr : trace) :
  match dict_lookup "versions" d with
  | None =>
      validate_package_versions w package_name (VDict d) tr
      = (Ok ([missing_versions_data], []), tr)
  | Some (VDict vs) =>
      (forall errors warnings tr',
          validate_package_versions w package_name (VDict d) tr
          = (Ok (errors, warnings), tr') ->
          exists new,
            tr' = tr ++ new
            /\ keys_outcome w package_name vs (version_keys vs)
                            errors warnings new
            /\ Forall (versions_event package_name) new
            /\ length errors + length warnings + length (filter is_print new)
               = length (version_keys vs)
            /\ length (head_requests new) <= length (version_keys vs))
      /\ (forall e tr',
             validate_package_versions w package_name (VDict d) tr
             = (Raise e, tr') ->
             foreign w e
             /\ exists new, tr' = tr ++ new
                            /\ Forall (versions_event package_name) new)
      /\ (network_caught w ->
          exists errors warnings new,
            validate_package_versions w package_name (VDict d) tr
            = (Ok (errors, warnings), tr ++ new)
            /\ keys_outcome w package_name vs (version_keys vs)
                            errors warnings new)
  | Some _ =>
      validate_package_versions w package_name (VDict d) tr
      = (Raise AttributeError, tr)
  end.
Proof.
  destruct (dict_lookup "versions" d) as [versions|] eqn:Hvs.
  - destruct versions as [| | | | | |vs];
      try (unfold validate_package_versions, bind, lift; simpl;
           unfold dict_mem; now rewrite Hvs).
    rewrite (validate_package_versions_loop w package_name d vs tr Hvs).
    pose proof (versions_loop_accounting w package_name vs (version_keys vs)
                  (fun k Hk => proj1 (proj1 (filter_In _ _ _) Hk)) [] [] tr)
      as Hloop.
    fold (version_keys vs).
    destruct (mfold _ (version_keys vs) ([], []) tr)
      as [[[errors warnings]|e] tr1].
    + destruct Hloop as [e2 [w2 [new [He [Hw [-> Hkeys]]]]]].
      simpl in He, Hw. subst e2 w2.
      split; [|split].
      * intros errors' warnings' tr' Heq. injection Heq as <- <- <-.
        exists new. split; [reflexivity|]. split; [exact Hkeys|].
        exact (keys_outcome_events _ _ _ _ _ _ _ Hkeys).
      * intros e tr' Heq. discriminate Heq.
      * intros _. now exists errors, warnings, new.
    + destruct Hloop as [He Hnew].
      split; [|split].
      * intros errors' warnings' tr' Heq. discriminate Heq.
      * intros e' tr' Heq. injection Heq as <- <-. now split.
      * intros Hnet. now apply foreign_caught in He.
  - unfold validate_package_versions, bind, lift. simpl.
    unfold dict_mem. now rewrite Hvs.
Qed.

Lemma versions_validator_on_dict_witness :
  exists errors warnings new,
    validate_package_versions (index_only index_foo) "foo"
      (descriptor "foo" mixed_versions) []
    = (Ok (errors, warnings), [] ++ new)
    /\ keys_outcome (index_only index_foo) "foo" mixed_versions
                    (version_keys mixed_versions) errors warnings new.
Proof.
  exact (proj2 (proj2 (versions_validator_on_dict (index_only index_foo) "foo"
                         (descriptor_fields "foo" mixed_versions) []))
           (index_only_caught index_foo)).
Defined.

(** Whether it returns or raises, the versions validator adds requests and
    success lines only to the trace. *)
Lemma versions_validator_run_events (w : world) (package_name : string)
    (d vs : dict) (tr : trace) :
  dict_lookup "versions" d = Some (VDict vs) ->
  exists new,
    snd (validate_package_versions w package_name (VDict d) tr) = tr ++ new
    /\ Forall (versions_event package_name) new.
Proof.
  intros Hvs.
  rewrite (validate_package_versions_loop w package_name d vs tr Hvs).
  pose proof (versions_loop_accounting w package_name vs (version_keys vs)
                (fun k Hk => proj1 (proj1 (filter_In _ _ _) Hk)) [] [] tr)
    as Hloop.
  fold (version_keys vs).
  destruct (mfold _ (version_keys vs) ([], []) tr)
    as [[[errors warnings]|e] tr1]; cbn [snd].
  - destruct Hloop as [e2 [w2 [new [_ [_ [-> Hkeys]]]]]].
    exists new. split; [reflexivity|].
    exact (proj1 (keys_outcome_events _ _ _ _ _ _ _ Hkeys)).
  - exact (proj2 Hloop).
Qed.

(** With a healthy network, the loop over the entries of [versions]. *)
Lemma versions_loop_healthy (w : world) (package_name : string)
    (vs entries : dict) :
  healthy w ->
  (forall k v, In (k, v) entries -> dict_lookup k vs = Some v) ->
  forall errors warnings tr,
    mfold (validate_version w package_name (VDict vs))
          (filter (fun k => negb (is_latest k)) (dict_keys entries))
          (errors, warnings) tr
    = (Ok (errors ++ map missing_download (no_download_keys entries),
           warnings ++ map legacy_version (legacy_keys entries)),
       tr ++ success_events package_name entries).
Proof.
  intros Hhealthy.
  induction entries as [|[k v] entries IH]; intros Hlook errors warnings tr.
  - simpl. unfold ret. now rewrite !app_nil_r.
  - assert (Hrest : forall k v, In (k, v) entries ->
                                dict_lookup k vs = Some v)
      by (intros k' v' H; apply Hlook; now right).
    specialize (IH Hrest).
    unfold legacy_keys, no_download_keys, success_events, dict_keys in *.
    cbn [filter map flat_map fst snd].
    destruct (is_latest k) eqn:Hlatest; cbn [negb andb app].
    { apply IH. }
    assert (Hv : dict_lookup k vs = Some v) by (apply Hlook; now left).
    cbn [mfold]. unfold bind at 1.
    destruct (is_dict v) eqn:Hdict.
    + destruct v as [| | | | | |vd]; try discriminate.
      unfold dict_mem. cbn [is_dict negb].
      destruct (dict_lookup "download" vd) as [url|] eqn:Hd.
      * destruct (version_with_download w package_name vs vd errors warnings
                    k url tr Hv Hd) as [r [Hcheck ->]].
        rewrite validate_version_download_url_run, Hhealthy in Hcheck.
        injection Hcheck as <-. cbn [Z.eqb Pos.eqb].
        rewrite IH, <- app_assoc. reflexivity.
      * rewrite (version_without_download w package_name vs vd errors warnings
                   k tr Hv Hd).
        rewrite IH. cbn [map fst negb]. now rewrite <- !app_assoc.
    + rewrite (version_legacy w package_name vs errors warnings k v tr Hv Hdict).
      rewrite IH. cbn [map fst negb].
      assert (Hv' : match v with
                    | VDict vd => negb (dict_mem "download" vd)
                    | _ => false
                    end = false)
        by (destruct v; try reflexivity; discriminate).
      assert (Hv'' : match v with
                     | VDict vd =>
                         match dict_lookup "download" vd with
                         | Some url =>
                             [EHead url;
                              EPrint (valid_download package_name k)]
                         | None => []
                         end
                     | _ => []
                     end = [])
        by (destruct v; try reflexivity; discriminate).
      rewrite Hv', Hv''. now rewrite <- !app_assoc.
Qed.

(** X11. When every request is answered with status 200, the versions
    validator returns exactly one error for each object entry without a
    [download] key and one warning for each entry that is not an object, in
    the order of the entries, and its events are, for each entry with a
    download URL, the request and the success line. *)
Theorem versions_with_healthy_network (w : world) (package_name : string)
    (d vs : dict) (tr : trace) :
  healthy w ->
  dict_lookup "versions" d = Some (VDict vs) ->
  dict_wf vs ->
  validate_package_versions w package_name (VDict d) tr
  = (Ok (map missing_download (no_download_keys vs),
         map legacy_version (legacy_keys vs)),
     tr ++ success_events package_name vs).
Proof.
  intros Hhealthy Hvs Hwf.
  rewrite (validate_package_versions_loop w package_name d vs tr Hvs).
  exact (versions_loop_healthy w package_name vs vs Hhealthy
           (fun k v Hin => dict_lookup_entry vs k v Hwf Hin) [] [] tr).
Qed.

Lemma versions_with_healthy_network_witness :
  validate_package_versions (index_only index_foo) "foo"
    (descriptor "foo" mixed_versions) []
  = (Ok ([missing_download "0.8"], [legacy_version "0.9"]),
     [EHead (VStr "https://example.com/ok");
      EPrint (valid_download "foo" "1.0")]).
Proof.
  exact (versions_with_healthy_network (index_only index_foo) "foo"
           (descriptor_fields "foo" mixed_versions) mixed_versions []
           (fun _ _ => eq_refl) eq_refl mixed_versions_wf).
Defined.

(** ** The driver *)

(** X12. A file that holds the JSON value [null] loads as [None], which the
    driver takes for a load failure although [load_json_file] has printed no
    message: a package file is counted as one error with no line that says
    why, and for the index [main] returns 1. *)
Theorem null_file_counts_as_load_failure (w : world) :
  (forall c f tr,
      read_file w (package_path f) = Parsed VNone ->
      validate_package_file w c f tr
      = (Ok {| total_errors := total_errors c + 1;
               total_warnings := total_warnings c |},
         tr ++ [EPrint [FText "📦 Validating package: ";
                        FValue (VStr (package_name_of_file f))];
                EOpen (package_path f);
                EPrint []]))
  /\ (read_file w INDEX_FILE = Parsed VNone ->
      main_counters w []
      = (Ok (1%Z, no_counts),
         [EPrint [FText "🔍 Validating rainmeas package registry..."; FText nl];
          EPrint (lit "📄 Checking index.json...");
          EOpen INDEX_FILE;
          EPrint (lit "❌ Failed to load index.json")])).
Proof.
  split.
  - intros c f tr Hnull.
    assert (Hnone : is_none (loaded w (package_path f)) = true)
      by (unfold loaded; now rewrite Hnull).
    rewrite (package_file_not_loaded w c f tr Hnone).
    unfold package_opening, load_events. now rewrite Hnull.
  - intros Hnull.
    assert (Hnone : is_none (loaded w INDEX_FILE) = true)
      by (unfold loaded; now rewrite Hnull).
    rewrite (main_index_not_loaded w [] Hnone).
    unfold index_events, load_events. now rewrite Hnull.
Qed.

Lemma null_file_counts_as_load_failure_witness :
  validate_package_file (registry_foo foo_null) no_counts "foo.json" []
  = (Ok {| total_errors := 1; total_warnings := 0 |},
     [EPrint [FText "📦 Validating package: "; FValue (VStr "foo")];
      EOpen "packages/foo.json";
      EPrint []])
  /\ fst (main_counters (index_only foo_null) []) = Ok (1%Z, no_counts).
Proof.
  split.
  - exact (proj1 (null_file_counts_as_load_failure (registry_foo foo_null))
             no_counts "foo.json" [] eq_refl).
  - exact (f_equal fst
             (proj2 (null_file_counts_as_load_failure (index_only foo_null))
                eq_refl)).
Defined.

(** A package file on which the structure validator raises ends the loop. *)
Lemma packages_loop_raises (w : world) (package_files : list string)
    (f : string) (e : exn) :
  In f package_files ->
  is_none (loaded w (package_path f)) = false ->
  validate_package_structure (package_name_of_file f)
                             (loaded w (package_path f)) = Raise e ->
  forall c tr,
  exists e', fst (mfold (validate_package_file w) package_files c tr)
             = Raise e'.
Proof.
  intros Hin Hsome Hraise.
  induction package_files as [|g files IH]; [contradiction|].
  intros c tr. cbn [mfold]. unfold bind.
  destruct (validate_package_file w c g tr) as [[c1|e1] tr1] eqn:Hstep.
  - destruct Hin as [->|Hin]; [|now apply IH].
    rewrite (package_file_structure_raises w c f tr e Hsome Hraise) in Hstep.
    discriminate Hstep.
  - now exists e1.
Qed.

(** X13. A package file that loads but on which the structure validator
    raises (a descriptor that is not a JSON object, or one whose [latest] is
    a list or an object) is not counted as an error: the exception leaves the
    loop and [main], so no summary is returned and the process ends with
    status 1. *)
Theorem raising_package_aborts_run (w : world) (entries : list string)
    (f : string) (e : exn) :
  is_none (loaded w INDEX_FILE) = false ->
  listdir_packages w = Some entries ->
  In f (package_files_of entries) ->
  is_none (loaded w (package_path f)) = false ->
  validate_package_structure (package_name_of_file f)
                             (loaded w (package_path f)) = Raise e ->
  (forall c tr,
      validate_package_file w c f tr
      = (Raise e, tr ++ package_opening w f))
  /\ (exists e', fst (main w []) = Raise e')
  /\ exit_status w = 1%Z.
Proof.
  intros Hindex Hdir Hin Hsome Hraise.
  split; [intros c tr; now apply package_file_structure_raises|].
  assert (Hmain : exists e', fst (main w []) = Raise e').
  { rewrite main_of_counters, (main_validates w [] entries Hindex Hdir).
    cbv zeta.
    destruct (validate_index_consistency _ _) as [consistency_errors|e0];
      [|now exists e0].
    match goal with
    | |- context [mfold ?body ?files ?c0 ?tr0] =>
        destruct (packages_loop_raises w files f e Hin Hsome Hraise c0 tr0)
          as [e' He'];
        destruct (mfold body files c0 tr0) as [[c|e1] tr2]
    end; [discriminate He' | now exists e1]. }
  split; [exact Hmain|].
  destruct Hmain as [e' He']. unfold exit_status. now rewrite He'.
Qed.

Lemma raising_package_aborts_run_witness :
  (exists e', fst (main (registry_foo (Parsed (VList []))) []) = Raise e')
  /\ exit_status (registry_foo (Parsed (VList []))) = 1%Z.
Proof.
  exact (proj2 (raising_package_aborts_run (registry_foo (Parsed (VList [])))
                  ["foo.json"] "foo.json" AttributeError
                  eq_refl eq_refl (or_introl eq_refl) eq_refl eq_refl)).
Defined.

(** X14. Whatever the registry and the network, the process ends with
    status 0 or 1. *)
Theorem exit_status_is_0_or_1 (w : world) :
  exit_status w = 0%Z \/ exit_status w = 1%Z.
Proof.
  unfold exit_status. rewrite main_of_counters.
  pose proof (main_counters_spec w []) as [new [_ [_ Hpost]]].
  destruct (main_counters w []) as [[[status c]|e] tr']; [|now right].
  cbn [fst] in *. unfold main_post in Hpost.
  destruct (is_none (loaded w INDEX_FILE)); [right; exact (proj1 Hpost)|].
  destruct (listdir_packages w); [|right; exact (proj1 Hpost)].
  destruct Hpost as [-> _]. unfold status_of.
  destruct (total_errors c >? 0)%Z; [now right | now left].
Qed.

Lemma opens_app (tr new : trace) : opens (tr ++ new) = opens tr ++ opens new.
Proof. apply filter_app. Qed.

Lemma opens_none (tr : trace) : Forall not_open tr -> opens tr = [].
Proof.
  unfold opens, not_open.
  induction 1 as [|e tr He _ IH]; simpl; [reflexivity|]. now rewrite He.
Qed.

Lemma opens_package_opening (w : world) (f : string) :
  opens (package_opening w f) = [open_package f].
Proof.
  unfold package_opening, load_events, open_package.
  destruct (read_file w (package_path f)); reflexivity.
Qed.

Lemma versions_event_not_open (package_name : string) (new : trace) :
  Forall (versions_event package_name) new -> Forall not_open new.
Proof.
  apply Forall_impl. intros e [[url ->]|[version ->]]; reflexivity.
Qed.

Lemma printed_errors_not_open (errors : list fstring) :
  Forall not_open (printed_errors errors).
Proof.
  unfold printed_errors. apply Forall_forall. intros e Hin.
  apply in_map_iff in Hin. destruct Hin as [x [<- _]]. reflexivity.
Qed.

Lemma printed_warnings_not_open (warnings : list fstring) :
  Forall not_open (printed_warnings warnings).
Proof.
  unfold printed_warnings. apply Forall_forall. intros e Hin.
  apply in_map_iff in Hin. destruct Hin as [x [<- _]]. reflexivity.
Qed.

(** A package file that passes the structure validator: the run of the
    versions validator inside the driver. *)
Lemma package_file_versions_effects (w : world) (c : counters) (f : string)
    (tr : trace) :
  is_none (loaded w (package_path f)) = false ->
  validate_package_structure (package_name_of_file f)
                             (loaded w (package_path f)) = Ok [] ->
  exists d vs new,
    loaded w (package_path f) = VDict d
    /\ dict_lookup "versions" d = Some (VDict vs)
    /\ Forall (versions_event (package_name_of_file f)) new
    /\ snd (validate_package_versions w (package_name_of_file f) (VDict d)
              (tr ++ package_opening w f))
       = (tr ++ package_opening w f) ++ new
    /\ match fst (validate_package_versions w (package_name_of_file f)
                    (VDict d) (tr ++ package_opening w f)) with
       | Ok (version_errors, version_warnings) =>
           validate_package_file w c f tr
           = (Ok (add_warnings (length version_warnings)
                    (add_errors (length version_errors) c)),
              tr ++ package_opening w f ++ new
                 ++ printed_errors version_errors
                 ++ printed_warnings version_warnings
                 ++ (if is_empty version_errors && is_empty version_warnings
                     then [EPrint [FText "✅ Package ";
                                   FValue (VStr (package_name_of_file f));
                                   FText " is valid"]]
                     else [])
                 ++ [EPrint []])
       | Raise e =>
           validate_package_file w c f tr
           = (Raise e, tr ++ package_opening w f ++ new)
       end.
Proof.
  intros Hsome Hok.
  destruct (package_file_versions_run w c f tr Hsome Hok)
    as [new [_ [Htr Hfile]]].
  destruct (structure_returns_on_dict _ _ _ Hok) as [d Hd].
  rewrite Hd in Hok, Htr, Hfile.
  destruct (structure_ok_versions _ _ Hok) as [vs [latest [Hvs _]]].
  exists d, vs, new.
  split; [exact Hd|]. split; [exact Hvs|].
  split; [|split; [exact Htr|]].
  - pose proof (versions_validator_run_events w (package_name_of_file f) d vs
                  (tr ++ package_opening w f) Hvs) as [new' [Htr' Hnew']].
    rewrite Htr in Htr'. apply app_inv_head in Htr'. now subst new'.
  - destruct (fst (validate_package_versions w _ _ _)) as [[ve vw]|e].
    + exact (proj2 Hfile).
    + exact (proj2 Hfile).
Qed.

(** One package file: it opens its own file and nothing else; the error
    counter grows by at least [file_min_errors]; the warning counter grows
    by [file_warnings]. *)
Lemma validate_package_file_effects (w : world) (c : counters) (f : string)
    (tr : trace) :
  opens (snd (validate_package_file w c f tr)) = opens tr ++ [open_package f]
  /\ forall c',
       fst (validate_package_file w c f tr) = Ok c' ->
       (total_errors c + Z.of_nat (file_min_errors w f) <= total_errors c')%Z
       /\ (versions_wf w f ->
           total_warnings c'
           = (total_warnings c + Z.of_nat (file_warnings w f))%Z).
Proof.
  unfold file_min_errors, file_warnings, structure_failures.
  destruct (is_none (loaded w (package_path f))) eqn:Hnone.
  - rewrite (package_file_not_loaded w c f tr Hnone). cbn [fst snd]. split.
    + rewrite !opens_app, opens_package_opening. reflexivity.
    + intros c' H. injection H as <-. simpl. split; [lia|]. intros _. lia.
  - destruct (validate_package_structure _ _) as [errors|e] eqn:Hstructure.
    + destruct errors as [|error errors].
      * destruct (package_file_versions_effects w c f tr Hnone Hstructure)
          as [d [vs [new [Hd [Hvs [Hnew [Htr Hfile]]]]]]].
        destruct (validate_package_versions w (package_name_of_file f)
                    (VDict d) (tr ++ package_opening w f))
          as [[[ve vw]|e] tr1] eqn:Hrun; cbn [fst snd] in Htr, Hfile;
          rewrite Hfile; cbn [fst snd]; subst tr1.
        -- split.
           ++ rewrite !opens_app, opens_package_opening.
              rewrite (opens_none new (versions_event_not_open _ _ Hnew)).
              rewrite (opens_none _ (printed_errors_not_open ve)).
              rewrite (opens_none _ (printed_warnings_not_open vw)).
              destruct (is_empty ve && is_empty vw); reflexivity.
           ++ intros c' H. injection H as <-. simpl. split; [lia|].
              intros Hwf. rewrite Hd, Hvs.
              rewrite (validate_package_versions_loop w _ d vs _ Hvs) in Hrun.
              destruct (versions_loop w (package_name_of_file f) vs vs
                          (fun k v Hin =>
                             dict_lookup_entry vs k v (Hwf d vs Hd Hvs) Hin)
                          [] [] (tr ++ package_opening w f))
                as [[ve' [tr' [Hloop _]]]|[e [tr' [Hloop _]]]];
                rewrite Hrun in Hloop; [|discriminate Hloop].
              injection Hloop as _ -> _.
              now rewrite length_map.
        -- split.
           ++ rewrite !opens_app, opens_package_opening.
              rewrite (opens_none new (versions_event_not_open _ _ Hnew)).
              now rewrite app_nil_r.
           ++ intros c' H. discriminate H.
      * rewrite (package_file_structure_errors w c f tr (error :: errors)
                   Hnone Hstructure ltac:(discriminate)).
        cbn [fst snd]. split.
        -- rewrite !opens_app, opens_package_opening.
           rewrite (opens_none _ (printed_errors_not_open (error :: errors))).
           reflexivity.
        -- intros c' H. injection H as <-.
           cbn [add_errors total_errors total_warnings length].
           split; [lia|]. intros _. lia.
    + rewrite (package_file_structure_raises w c f tr e Hnone Hstructure).
      cbn [fst snd]. split.
      * rewrite !opens_app, opens_package_opening. reflexivity.
      * intros c' H. discriminate H.
Qed.

Lemma packages_loop_effects (w : world) (package_files : list string)
    (c c' : counters) (tr : trace) :
  fst (mfold (validate_package_file w) package_files c tr) = Ok c' ->
  opens (snd (mfold (validate_package_file w) package_files c tr))
  = opens tr ++ map open_package package_files
  /\ (total_errors c
      + Z.of_nat (list_sum (map (file_min_errors w) package_files))
      <= total_errors c')%Z
  /\ ((forall f, In f package_files -> versions_wf w f) ->
      total_warnings c'
      = (total_warnings c
         + Z.of_nat (list_sum (map (file_warnings w) package_files)))%Z).
Proof.
  revert c tr. induction package_files as [|f files IH]; intros c tr.
  - simpl. intros H. injection H as <-. rewrite app_nil_r.
    split; [reflexivity|]. split; [lia|]. intros _. lia.
  - cbn [mfold]. unfold bind.
    destruct (validate_package_file_effects w c f tr) as [Hopens Hcount].
    destruct (validate_package_file w c f tr) as [[c1|e] tr1];
      cbn [fst snd] in *; [|discriminate].
    intros Hrest. destruct (Hcount c1 eq_refl) as [Herrors Hwarnings].
    destruct (IH c1 tr1 Hrest) as [Hopens' [Herrors' Hwarnings']].
    split; [|split].
    + rewrite Hopens', Hopens, <- app_assoc. reflexivity.
    + simpl. rewrite Nat2Z.inj_add. lia.
    + intros Hwf. simpl. rewrite Nat2Z.inj_add.
      rewrite Hwarnings' by (intros g Hg; apply Hwf; now right).
      rewrite Hwarnings by (apply Hwf; now left). lia.
Qed.

Lemma opens_index_events (w : world) : opens (index_events w) = [EOpen INDEX_FILE].
Proof.
  unfold index_events, load_events.
  destruct (read_file w INDEX_FILE); reflexivity.
Qed.

Lemma opens_consistency_events (errors : list fstring) :
  opens (consistency_events errors) = [].
Proof.
  unfold consistency_events. rewrite !opens_app.
  rewrite (opens_none _ (printed_errors_not_open errors)).
  destruct (is_empty errors); reflexivity.
Qed.

Lemma opens_summary_events (c : counters) : opens (summary_events c) = [].
Proof. reflexivity. Qed.

(** A run of [main] that gets past the consistency check and returns. *)
Lemma main_counters_effects (w : world) (entries : list string) (tr tr' : trace)
    (status : Z) (c : counters) :
  is_none (loaded w INDEX_FILE) = false ->
  listdir_packages w = Some entries ->
  main_counters w tr = (Ok (status, c), tr') ->
  let package_files := package_files_of entries in
  exists consistency_errors,
    validate_index_consistency (loaded w INDEX_FILE) package_files
    = Ok consistency_errors
    /\ status = status_of c
    /\ opens tr' = opens tr ++ EOpen INDEX_FILE :: map open_package package_files
    /\ (Z.of_nat (length consistency_errors)
        + Z.of_nat (list_sum (map (file_min_errors w) package_files))
        <= total_errors c)%Z
    /\ ((forall f, In f package_files -> versions_wf w f) ->
        total_warnings c
        = Z.of_nat (list_sum (map (file_warnings w) package_files)))
    /\ (exists tr2, tr' = tr2 ++ summary_events c)
    /\ (forall f, In f package_files ->
                  is_none (loaded w (package_path f)) = false ->
                  exists errors,
                    validate_package_structure
                      (package_name_of_file f) (loaded w (package_path f))
                    = Ok errors).
Proof.
  intros Hindex Hdir. rewrite (main_validates w tr entries Hindex Hdir).
  cbv zeta.
  destruct (validate_index_consistency _ _) as [consistency_errors|e];
    [|discriminate].
  match goal with
  | |- context [mfold ?body ?files ?c0 ?tr0] =>
      pose proof (packages_loop_effects w files c0) as Hloop;
      specialize (Hloop) with (tr := tr0);
      pose proof (fun f e Hin Hsome Hraise =>
                    packages_loop_raises w files f e Hin Hsome Hraise c0 tr0)
        as Hraises;
      destruct (mfold body files c0 tr0) as [[c1|e] tr2]
  end; [|discriminate].
  intros H. injection H as <- <- <-.
  destruct (Hloop c1 eq_refl) as [Hopens [Herrors Hwarnings]].
  cbn [fst snd] in Hopens.
  exists consistency_errors. split; [reflexivity|]. split; [reflexivity|].
  split; [|split; [|split; [|split]]].
  - rewrite opens_app, opens_summary_events, app_nil_r, Hopens.
    rewrite !opens_app, opens_index_events, opens_consistency_events.
    cbn [listing_events opens filter is_open app].
    rewrite <- !app_assoc. reflexivity.
  - cbn [add_errors no_counts total_errors] in Herrors. lia.
  - intros Hwf. rewrite (Hwarnings Hwf). simpl. lia.
  - now exists tr2.
  - intros f Hin Hsome.
    destruct (validate_package_structure _ _) as [errors|e] eqn:Hstructure;
      [now exists errors|].
    destruct (Hraises f e Hin Hsome Hstructure) as [e' He'].
    discriminate He'.
Qed.

Lemma list_sum_zero (xs : list nat) (x : nat) :
  list_sum xs = 0 -> In x xs -> x = 0.
Proof.
  induction xs as [|y xs IH]; simpl; [contradiction|].
  intros Hsum [->|Hin]; [lia | apply IH; [lia | exact Hin]].
Qed.

(** X15. A run of [main] that reaches its summary has opened [index.json]
    and then every listed file whose name ends with [.json], once each and in
    the order of the listing; it has opened nothing else, so the other
    entries of the packages directory are never read. *)
Theorem files_opened (w : world) (entries : list string) (tr : trace)
    (status : Z) (c : counters) :
  is_none (loaded w INDEX_FILE) = false ->
  listdir_packages w = Some entries ->
  main_counters w [] = (Ok (status, c), tr) ->
  opens tr
  = EOpen INDEX_FILE :: map open_package (package_files_of entries)
  /\ forall path,
       In (EOpen path) tr ->
       path = INDEX_FILE
       \/ exists f, In f entries /\ str_endswith f ".json" = true
                    /\ path = package_path f.
Proof.
  intros Hindex Hdir Hrun.
  destruct (main_counters_effects w entries [] tr status c Hindex Hdir Hrun)
    as [_ [_ [_ [Hopens _]]]].
  cbn [opens filter app] in Hopens. split; [exact Hopens|].
  intros path Hin.
  assert (Hin' : In (EOpen path) (opens tr))
    by (apply filter_In; now split).
  rewrite Hopens in Hin'. destruct Hin' as [Heq|Hin'].
  - left. now injection Heq.
  - right. apply in_map_iff in Hin'. destruct Hin' as [f [Heq Hf]].
    apply filter_In in Hf. exists f. injection Heq as <-.
    now repeat split.
Qed.

Lemma files_opened_witness :
  opens (snd (main_counters
                (registry index_foo
                   [("README.md", FileNotFoundError);
                    ("foo.json", Parsed foo_1_0)] (always 200)) []))
  = [EOpen "index.json"; EOpen "packages/foo.json"].
Proof.
  set (w := registry index_foo
              [("README.md", FileNotFoundError); ("foo.json", Parsed foo_1_0)]
              (always 200)).
  assert (Hrun : main_counters w []
                 = (Ok (0%Z, no_counts), snd (main_counters w [])))
    by (vm_compute; reflexivity).
  exact (proj1 (files_opened w ["README.md"; "foo.json"] _ 0%Z no_counts
                  eq_refl eq_refl Hrun)).
Defined.

(** X16. Exit status 0 is sound for the checks that do not depend on the
    network: when the process ends with status 0, the index loaded, the
    packages directory exists, the consistency check returned no error, and
    every package file loaded a descriptor without structure errors. *)
Theorem exit_status_0_sound (w : world) :
  exit_status w = 0%Z ->
  is_none (loaded w INDEX_FILE) = false
  /\ exists entries,
       listdir_packages w = Some entries
       /\ validate_index_consistency (loaded w INDEX_FILE)
            (package_files_of entries) = Ok []
       /\ forall f, In f (package_files_of entries) ->
            is_none (loaded w (package_path f)) = false
            /\ validate_package_structure (package_name_of_file f)
                 (loaded w (package_path f)) = Ok [].
Proof.
  unfold exit_status. rewrite main_of_counters.
  destruct (main_counters w []) as [[[status c]|e] tr] eqn:Hrun;
    cbn [fst]; [|discriminate].
  intros ->.
  destruct (is_none (loaded w INDEX_FILE)) eqn:Hindex.
  { rewrite (main_index_not_loaded w [] Hindex) in Hrun. discriminate Hrun. }
  split; [reflexivity|].
  destruct (listdir_packages w) as [entries|] eqn:Hdir.
  2:{ rewrite (main_no_packages_dir w [] Hindex Hdir) in Hrun.
      discriminate Hrun. }
  exists entries. split; [reflexivity|].
  destruct (main_counters_effects w entries [] tr 0%Z c Hindex Hdir Hrun)
    as [cerrs [Hcons [Hstatus [_ [Herrors [_ [_ Htyped]]]]]]].
  assert (Hzero : (total_errors c <= 0)%Z).
  { unfold status_of in Hstatus.
    destruct (Z.gtb_spec (total_errors c) 0); [discriminate Hstatus | lia]. }
  split.
  - rewrite Hcons. destruct cerrs; [reflexivity|].
    cbn [length] in Herrors. lia.
  - intros f Hf.
    assert (Hmin : file_min_errors w f = 0)
      by (apply (list_sum_zero
                   (map (file_min_errors w) (package_files_of entries)));
          [lia | now apply in_map]).
    unfold file_min_errors, structure_failures in Hmin.
    destruct (is_none (loaded w (package_path f))) eqn:Hnone;
      [discriminate Hmin|].
    split; [reflexivity|].
    destruct (Htyped f Hf Hnone) as [errors Hstructure].
    rewrite Hstructure in *. now destruct errors.
Qed.

Lemma exit_status_0_sound_witness :
  is_none (loaded (registry_foo (Parsed foo_1_0)) INDEX_FILE) = false
  /\ exists entries,
       listdir_packages (registry_foo (Parsed foo_1_0)) = Some entries
       /\ validate_index_consistency
            (loaded (registry_foo (Parsed foo_1_0)) INDEX_FILE)
            (package_files_of entries) = Ok []
       /\ forall f, In f (package_files_of entries) ->
            is_none (loaded (registry_foo (Parsed foo_1_0)) (package_path f))
            = false
            /\ validate_package_structure (package_name_of_file f)
                 (loaded (registry_foo (Parsed foo_1_0)) (package_path f))
               = Ok [].
Proof.
  apply (exit_status_0_sound (registry_foo (Parsed foo_1_0))).
  vm_compute. reflexivity.
Defined.

(** X17. The warning counter does not depend on the network: a run of
    [main] that reaches its summary has counted one warning for each legacy
    (non-object) version entry of the packages that load and pass the
    structure validator, and prints that number in its summary. *)
Theorem warnings_counted (w : world) (entries : list string) (tr : trace)
    (status : Z) (c : counters) :
  is_none (loaded w INDEX_FILE) = false ->
  listdir_packages w = Some entries ->
  (forall f, In f (package_files_of entries) -> versions_wf w f) ->
  main_counters w [] = (Ok (status, c), tr) ->
  let warnings :=
    Z.of_nat (list_sum (map (file_warnings w) (package_files_of entries))) in
  total_warnings c = warnings
  /\ In (EPrint [FText "Warnings: "; FValue (VInt warnings)]) tr.
Proof.
  intros Hindex Hdir Hwf Hrun. cbv zeta.
  destruct (main_counters_effects w entries [] tr status c Hindex Hdir Hrun)
    as [_ [_ [_ [_ [_ [Hwarnings [[tr2 ->] _]]]]]]].
  specialize (Hwarnings Hwf). split; [exact Hwarnings|].
  apply in_or_app. right. rewrite <- Hwarnings.
  unfold summary_events. simpl. tauto.
Qed.

Lemma warnings_counted_witness :
  exists c tr,
    main_counters (registry_foo (Parsed foo_legacy)) [] = (Ok (0%Z, c), tr)
    /\ total_warnings c = 1%Z
    /\ In (EPrint [FText "Warnings: "; FValue (VInt 1)]) tr.
Proof.
  set (w := registry_foo (Parsed foo_legacy)).
  assert (Hrun : main_counters w []
                 = (Ok (0%Z, {| total_errors := 0; total_warnings := 1 |}),
                    snd (main_counters w [])))
    by (vm_compute; reflexivity).
  assert (Hwf : forall f, In f (package_files_of ["foo.json"]) ->
                          versions_wf w f).
  { intros f [<-|[]] d vs Hd Hvs. vm_compute in Hd. injection Hd as <-.
    vm_compute in Hvs. injection Hvs as <-.
    unfold dict_wf. simpl.
    repeat (constructor; [simpl; intuition discriminate|]). constructor. }
  exists {| total_errors := 0; total_warnings := 1 |}, (snd (main_counters w [])).
  split; [exact Hrun|].
  exact (warnings_counted w ["foo.json"] _ 0%Z _ eq_refl eq_refl Hwf Hrun).
Defined.

(** With a healthy network a clean package adds no error. *)
Lemma clean_package_no_error (w : world) (c : counters) (f : string)
    (tr : trace) :
  healthy w ->
  clean_package w f ->
  exists c' tr',
    validate_package_file w c f tr = (Ok c', tr')
    /\ total_errors c' = total_errors c.
Proof.
  intros Hhealthy [d [vs [Hd [Hok [Hvs [Hwf Hdownloads]]]]]].
  assert (Hsome : is_none (loaded w (package_path f)) = false)
    by now rewrite Hd.
  rewrite <- Hd in Hok.
  destruct (package_file_versions_effects w c f tr Hsome Hok)
    as [d' [vs' [new [Hd' [_ [_ [_ Hfile]]]]]]].
  rewrite Hd in Hd'. injection Hd' as <-.
  rewrite (validate_package_versions_loop w _ d vs _ Hvs) in Hfile.
  rewrite (versions_loop_healthy w (package_name_of_file f) vs vs Hhealthy
             (fun k v Hin => dict_lookup_entry vs k v Hwf Hin)) in Hfile.
  rewrite Hdownloads in Hfile. cbn [fst map length app] in Hfile.
  eexists _, _. split; [exact Hfile|]. simpl. lia.
Qed.

(** The loop over package files that each leave the error counter. *)
Lemma packages_loop_no_error (w : world) (package_files : list string) :
  (forall f, In f package_files ->
             forall c tr, exists c' tr',
               validate_package_file w c f tr = (Ok c', tr')
               /\ total_errors c' = total_errors c) ->
  forall c tr,
  exists c' tr',
    mfold (validate_package_file w) package_files c tr = (Ok c', tr')
    /\ total_errors c' = total_errors c.
Proof.
  induction package_files as [|f files IH]; intros Hfiles c tr.
  - now exists c, tr.
  - destruct (Hfiles f (or_introl eq_refl) c tr) as [c1 [tr1 [Hstep Hc1]]].
    destruct (IH (fun g Hg => Hfiles g (or_intror Hg)) c1 tr1)
      as [c2 [tr2 [Hrest Hc2]]].
    exists c2, tr2. cbn [mfold]. unfold bind. rewrite Hstep, Hrest.
    split; [reflexivity | lia].
Qed.

Lemma clean_packages_no_error (w : world) (package_files : list string) :
  healthy w ->
  (forall f, In f package_files -> clean_package w f) ->
  forall c tr,
  exists c' tr',
    mfold (validate_package_file w) package_files c tr = (Ok c', tr')
    /\ total_errors c' = total_errors c.
Proof.
  intros Hhealthy Hclean. apply packages_loop_no_error.
  intros f Hf c tr.
  exact (clean_package_no_error w c f tr Hhealthy (Hclean f Hf)).
Qed.

(** X18. A valid registry checked over a healthy network passes: when the
    index is a dict consistent with the package files, every package file
    loads a descriptor that has no structure error and whose version entries
    are legacy values or objects with a download URL, and every request is
    answered with status 200, then [main] counts no error and the process
    ends with status 0, however many warnings there are. *)
Theorem valid_registry_exits_0 (w : world) (entries : list string) :
  healthy w ->
  is_none (loaded w INDEX_FILE) = false ->
  listdir_packages w = Some entries ->
  validate_index_consistency (loaded w INDEX_FILE) (package_files_of entries)
  = Ok [] ->
  (forall f, In f (package_files_of entries) -> clean_package w f) ->
  (exists c tr,
      main_counters w [] = (Ok (0%Z, c), tr) /\ total_errors c = 0%Z)
  /\ exit_status w = 0%Z.
Proof.
  intros Hhealthy Hindex Hdir Hcons Hclean.
  assert (Hrun : exists c tr,
             main_counters w [] = (Ok (0%Z, c), tr) /\ total_errors c = 0%Z).
  { rewrite (main_validates w [] entries Hindex Hdir). cbv zeta.
    rewrite Hcons.
    match goal with
    | |- context [mfold ?body ?files ?c0 ?tr0] =>
        destruct (clean_packages_no_error w files Hhealthy Hclean c0 tr0)
          as [c [tr2 [-> Hc]]]
    end.
    simpl in Hc. exists c, (tr2 ++ summary_events c).
    unfold status_of. rewrite Hc. now split. }
  split; [exact Hrun|].
  destruct Hrun as [c [tr [Hrun _]]].
  unfold exit_status. now rewrite main_of_counters, Hrun.
Qed.

Lemma valid_registry_exits_0_witness :
  exit_status (registry_foo (Parsed foo_legacy)) = 0%Z.
Proof.
  apply (valid_registry_exits_0 (registry_foo (Parsed foo_legacy))
           ["foo.json"]).
  - intros n url. reflexivity.
  - reflexivity.
  - reflexivity.
  - reflexivity.
  - intros f [<-|[]].
    exists (descriptor_fields "foo"
              [("latest", VStr "1.0");
               ("1.0", VStr "https://example.com/legacy")]),
      [("latest", VStr "1.0"); ("1.0", VStr "https://example.com/legacy")].
    repeat split; try reflexivity.
    unfold dict_wf. simpl.
    repeat (constructor; [simpl; intuition discriminate|]). constructor.
Defined.





